(** * gnet: the public surface of the event-driven server engine (gnet.go)

    A shallow embedding of [gnet.go]: the [Action] directive, the default
    handler [EventServer], the address parser [parseAddr], the entry point
    [Serve] and the introspection [CountConnections], together with the
    buffer contract of the [Conn] interface, whose implementation lives
    outside [gnet.go].

    Part I holds the definitions, Part II the theorems. *)

From Stdlib Require Import ZArith Ascii String.
From stdpp Require Import base tactics option list.

Local Open Scope nat_scope.

(** * Part I: definitions *)

(** ** The connection buffer contract ([Conn.Read], [ReadN], [ShiftN],
    [BufferLength], [ResetBuffer])

    [gnet.go] declares these methods in the [Conn] interface (lines 90 to
    109); the type that implements them is in another file of the package. *)

(** Modelled from the spec: the inbound ring buffer of a connection (its
    implementation is not in [gnet.go]).  The spec gives it buffered bytes
    and a read cursor that never exceeds the filled length; the bytes below
    the cursor have been consumed. *)
Record RingBuffer := mkRing {
  filled : list Byte.byte;
  r : nat
}.

(** Modelled from the spec: the per-connection inbound state, "ring buffer
    + loop-local staging buffer" (the struct behind [Conn] is not in
    [gnet.go]).  The staging bytes are the newest ones and follow the ring
    buffer's bytes in reading order. *)
Record conn := mkConn {
  inboundBuffer : RingBuffer;
  buffer : list Byte.byte
}.

(** The spec's invariant on the cursor. *)
Definition cursor_ok (rb : RingBuffer) : Prop := r rb <= length (filled rb).

Definition unread (rb : RingBuffer) : list Byte.byte := drop (r rb) (filled rb).

Definition advance (k : nat) (rb : RingBuffer) : RingBuffer :=
  mkRing (filled rb) (r rb + k).

Definition emptyRing : RingBuffer := mkRing [] 0.

(** Modelled from the spec: [buffer_length()], "count of currently
    unconsumed bytes" ([Conn.BufferLength] has no body in [gnet.go]). *)
Definition BufferLength (c : conn) : nat :=
  length (unread (inboundBuffer c)) + length (buffer c).

(** Modelled from the spec: [read()], "returns all currently buffered,
    unconsumed bytes without mutating the cursor" ([Conn.Read] has no body
    in [gnet.go]).  The connection is threaded through, as for a method on
    a mutable receiver. *)
Definition Read (c : conn) : list Byte.byte * conn :=
  (unread (inboundBuffer c) ++ buffer c, c).

(** Modelled from the spec: [read_n(n)], "returns up to n unconsumed bytes
    and the actual count returned (which is min(n, available))"
    ([Conn.ReadN] has no body in [gnet.go]).  The spec's [n] counts bytes,
    so it is a natural number here; the spec says nothing of a negative
    argument of the Go [int]. *)
Definition ReadN (n : nat) (c : conn) : (nat * list Byte.byte) * conn :=
  let size := n `min` BufferLength c in
  ((size, take size (Read c).1), c).

(** Modelled from the spec: [shift_n(n)], "advances the read cursor by
    min(n, available), evicting that many bytes as consumed; returns the
    count actually shifted" ([Conn.ShiftN] has no body in [gnet.go]).  The
    ring buffer's bytes are consumed first, the staging bytes after them. *)
Definition ShiftN (n : nat) (c : conn) : nat * conn :=
  let size := n `min` BufferLength c in
  let inBufferLen := length (unread (inboundBuffer c)) in
  if size <=? inBufferLen
  then (size, mkConn (advance size (inboundBuffer c)) (buffer c))
  else (size, mkConn (advance inBufferLen (inboundBuffer c))
                     (drop (size - inBufferLen) (buffer c))).

(** Modelled from the spec: [reset_buffer()], "discards all buffered bytes
    and resets the cursor to empty, for both the ring buffer and any
    loop-local staging bytes" ([Conn.ResetBuffer] has no body in
    [gnet.go]). *)
Definition ResetBuffer (c : conn) : conn := mkConn emptyRing [].

(** ** [Action] (gnet.go, lines 20 to 32) *)

Module Action.

(** [type Action int] with the constants [None], [Close], [Shutdown]. *)
Inductive Action := None | Close | Shutdown.

(** The zero value of the type, which a named result holds until it is
    assigned: the constant numbered 0. *)
Definition zero : Action := None.

(** The [iota] numbering of the constants. *)
Definition to_Z (a : Action) : Z :=
  match a with
  | None => 0
  | Close => 1
  | Shutdown => 2
  end.

End Action.

Abbreviation Action := Action.Action.

(** ** Errors *)

(** Go's [error] values met by [Serve]: [ErrUnsupportedProtocol], a package
    variable declared outside [gnet.go], and the errors that the operating
    system calls return, kept by their text. *)
Inductive error :=
| ErrUnsupportedProtocol
| SysError (text : string).

(** A [[]byte]: [None] is the nil slice. *)
Definition bytes := option (list Byte.byte).

(** [time.Duration], an [int64] count of nanoseconds. *)
Definition Duration := Z.

(** [net.Addr], by its text. *)
Definition Addr := string.

(** [Logger] values: the package's initial [defaultLogger] (a [log.Logger]
    on standard error, line 34) and the ones callers pass in [Options]. *)
Inductive Logger :=
| StderrLogger
| UserLogger (id : nat).

(** ** [Server] and [CountConnections] (gnet.go, lines 42 to 74) *)

(** The event loop, by the one field [gnet.go] reads: [connCount], an
    [int32] (line 70 loads it with [atomic.LoadInt32]). *)
Record eventloop := mkLoop {
  connCount : Z
}.

(** The internal [server], by the one field [gnet.go] reads; the event
    loop set is the ordered collection of the loops. *)
Record server := mkServer {
  subEventLoopSet : list eventloop
}.

Record Server := mkServerInfo {
  svr : server;
  Multicore : bool;
  ServerAddr : Addr;
  NumEventLoop : Z;
  ServerReusePort : bool;
  TCPKeepAlive : Duration
}.

(** Two's-complement wrap-around of a [w]-bit signed integer. *)
Definition wrap (w : Z) (z : Z) : Z :=
  ((z + 2 ^ (w - 1)) mod 2 ^ w - 2 ^ (w - 1))%Z.

(** Modelled from the spec: [eventLoopSet.iterate] is not in [gnet.go]; it
    visits the loops of the group in order, with their index, and stops when
    the callback returns false.  The callback's captured variable is the
    accumulator. *)
Fixpoint iterate {A : Type} (i : Z) (set : list eventloop)
    (f : Z -> eventloop -> A -> bool * A) (acc : A) : A :=
  match set with
  | [] => acc
  | el :: rest =>
      let '(continue, acc') := f i el acc in
      if continue then iterate (i + 1) rest f acc' else acc'
  end.

(** [Server.CountConnections]: [count += int(atomic.LoadInt32(&el.connCount))]
    for every loop.  [intSize] is the width of Go's [int] on the platform
    (32 or 64). *)
Definition CountConnections (intSize : Z) (s : Server) : Z :=
  iterate 0 (subEventLoopSet (svr s))
    (fun _ el count => (true, wrap intSize (count + wrap intSize (connCount el))))
    0%Z.

(** The sum of the counters of a group. *)
Definition sum_connCount (set : list eventloop) : Z :=
  foldr Z.add 0%Z (connCount <$> set).

(** Modelled from the spec: "an atomically maintained per-loop counter,
    incremented on open and decremented on close"; the code that opens and
    closes connections is not in [gnet.go].  The counter is an [int32], so
    the addition wraps at 32 bits. *)
Definition addConnCount (delta : Z) (el : eventloop) : eventloop :=
  mkLoop (wrap 32 (connCount el + delta)).

(** A connection is opened on, or closed on, the loop with the given index. *)
Inductive ConnEvent :=
| Opened (loop : nat)
| Closed (loop : nat).

Definition conn_step (set : list eventloop) (e : ConnEvent) : list eventloop :=
  match e with
  | Opened i => alter (addConnCount 1) i set
  | Closed i => alter (addConnCount (-1)) i set
  end.

Definition conn_run (set : list eventloop) (tr : list ConnEvent) : list eventloop :=
  foldl conn_step set tr.

Definition event_loop (e : ConnEvent) : nat :=
  match e with Opened i | Closed i => i end.

Definition is_open (e : ConnEvent) : bool :=
  match e with Opened _ => true | Closed _ => false end.

(** The number of opens, and of closes, in a history. *)
Definition opens (tr : list ConnEvent) : Z :=
  Z.of_nat (length (filter (fun e => is_open e = true) tr)).

Definition closes (tr : list ConnEvent) : Z :=
  Z.of_nat (length (filter (fun e => is_open e = false) tr)).

(** The connections a history leaves open on loop [i]. *)
Definition open_on (i : nat) (tr : list ConnEvent) : Z :=
  (opens (filter (fun e => event_loop e = i) tr)
   - closes (filter (fun e => event_loop e = i) tr))%Z.

(** A group of [n] fresh loops. *)
Definition fresh_loops (n : nat) : list eventloop := replicate n (mkLoop 0).

Definition server_of (set : list eventloop) : Server :=
  mkServerInfo (mkServer set) true ""%string (Z.of_nat (length set)) false 0%Z.

(** ** Go's [strings] functions used by [parseAddr]

    A Go string is a sequence of bytes; it is a [string] of 8-bit
    characters here.  These are the standard library's functions, as
    [parseAddr] calls them. *)

Local Open Scope string_scope.

(** [strings.HasPrefix]. *)
Fixpoint HasPrefix (s prefix : string) {struct prefix} : bool :=
  match prefix with
  | "" => true
  | String p prefix' =>
      match s with
      | "" => false
      | String c s' => if Ascii.eqb c p then HasPrefix s' prefix' else false
      end
  end.

(** [strings.Index]: the offset of the first instance of [substr] in [s],
    or -1 when there is none. *)
Fixpoint Index (s substr : string) : Z :=
  if HasPrefix s substr then 0%Z
  else match s with
       | "" => (-1)%Z
       | String _ s' =>
           let i := Index s' substr in
           if (i <? 0)%Z then (-1)%Z else (i + 1)%Z
       end.

(** [strings.Contains]: [Index(s, substr) >= 0]. *)
Definition Contains (s substr : string) : bool := (0 <=? Index s substr)%Z.

(** The slices [s[:n]] and [s[n:]], for [n] within the string. *)
Fixpoint slice_to (n : nat) (s : string) : string :=
  match n, s with
  | S n', String c s' => String c (slice_to n' s')
  | _, _ => ""
  end.

Fixpoint slice_from (n : nat) (s : string) : string :=
  match n, s with
  | S n', String _ s' => slice_from n' s'
  | _, _ => s
  end.

(** The loop of [strings.Split] for a separator that is not empty: cut at
    the first instance of [sep], go on with what follows it, and end with
    the rest when [Index] finds no further instance.  The loop of the
    library is bounded by the number of instances; [fuel] is the recursion
    measure here, and the length of the string is always enough of it. *)
Fixpoint genSplit (fuel : nat) (s sep : string) : list string :=
  match fuel with
  | O => [s]
  | S fuel' =>
      let m := Index s sep in
      if (m <? 0)%Z then [s]
      else slice_to (Z.to_nat m) s
             :: genSplit fuel' (slice_from (Z.to_nat m + String.length sep) s) sep
  end.

Definition Split (s sep : string) : list string :=
  genSplit (String.length s) s sep.

(** [strings.Join]: the elements with [sep] between them. *)
Fixpoint Join (elems : list string) (sep : string) : string :=
  match elems with
  | [] => ""
  | [x] => x
  | x :: rest => x ++ sep ++ Join rest sep
  end.

(** A string of ASCII bytes: every byte is below 128 ([utf8.RuneSelf]). *)
Fixpoint isASCII (s : string) : bool :=
  match s with
  | "" => true
  | String c s' => (nat_of_ascii c <? 128)%nat && isASCII s'
  end.

(** The ASCII path of [strings.ToLower]: every byte from 'A' to 'Z' is
    moved to its lower-case letter; this is what the library does on a
    string of ASCII bytes, and on such a string only: [asciiToLower] stands
    for the library's function where [isASCII] holds of the input.
    [isUpper] and [hasUpper] test for the ASCII letters 'A' to 'Z'. *)
Definition isUpper (c : ascii) : bool :=
  let n := nat_of_ascii c in (65 <=? n)%nat && (n <=? 90)%nat.

Definition lowerByte (c : ascii) : ascii :=
  if isUpper c then ascii_of_nat (nat_of_ascii c + 32) else c.

Fixpoint asciiToLower (s : string) : string :=
  match s with
  | "" => ""
  | String c s' => String (lowerByte c) (asciiToLower s')
  end.

Fixpoint hasUpper (s : string) : bool :=
  match s with
  | "" => false
  | String c s' => isUpper c || hasUpper s'
  end.

(** ** [parseAddr] (gnet.go, lines 283 to 292)

    [ToLower] stands for [strings.ToLower], which is not code of this
    package: the definition takes it as a parameter, and [asciiToLower] is
    its instance for evaluation.  The result is [None] where the Go code
    would panic on [pair[0]] or [pair[1]] (index out of range). *)
Definition parseAddr (ToLower : string -> string) (addr : string)
    : option (string * string) :=
  let network := "tcp" in
  let address := ToLower addr in
  if Contains address "://" then
    let pair := Split address "://" in
    network ← pair !! 0%nat;
    address ← pair !! 1%nat;
    Some (network, address)
  else Some (network, address).

(** ** [EventHandler] and [EventServer] (gnet.go, lines 128 to 211)

    A callback runs on the state of the program, [St]: it receives it and
    hands back what it made of it, next to its results. *)

Record EventHandler (St : Type) := mkHandler {
  OnInitComplete : Server -> St -> Action * St;
  OnShutdown : Server -> St -> St;
  OnOpened : conn -> St -> (bytes * Action) * St;
  OnClosed : conn -> option error -> St -> Action * St;
  PreWrite : St -> St;
  React : bytes -> conn -> St -> (bytes * Action) * St;
  Tick : St -> (Duration * Action) * St
}.

Arguments mkHandler {St}.
Arguments OnInitComplete {St}.
Arguments OnShutdown {St}.
Arguments OnOpened {St}.
Arguments OnClosed {St}.
Arguments PreWrite {St}.
Arguments React {St}.
Arguments Tick {St}.

(** The methods of [*EventServer].  Each body is a bare [return] (or is
    empty): the named results go back with their zero values. *)
Module EventServer.
Section Methods.
Context {St : Type}.

Definition OnInitComplete (svr : Server) (st : St) : Action * St :=
  (Action.zero, st).

Definition OnShutdown (svr : Server) (st : St) : St := st.

Definition OnOpened (c : conn) (st : St) : (bytes * Action) * St :=
  ((None, Action.zero), st).

Definition OnClosed (c : conn) (err : option error) (st : St) : Action * St :=
  (Action.zero, st).

Definition PreWrite (st : St) : St := st.

Definition React (frame : bytes) (c : conn) (st : St) : (bytes * Action) * St :=
  ((None, Action.zero), st).

Definition Tick (st : St) : (Duration * Action) * St :=
  ((0%Z, Action.zero), st).

(** [*EventServer] as an [EventHandler]. *)
Definition handler : EventHandler St :=
  mkHandler OnInitComplete OnShutdown OnOpened OnClosed PreWrite React Tick.

End Methods.
End EventServer.

(** A handler that embeds [*EventServer] and declares [React] alone: the
    other methods are the promoted ones of [EventServer]. *)
Definition embed_with_React {St : Type}
    (react : bytes -> conn -> St -> (bytes * Action) * St) : EventHandler St :=
  mkHandler EventServer.OnInitComplete EventServer.OnShutdown
            EventServer.OnOpened EventServer.OnClosed EventServer.PreWrite
            react EventServer.Tick.

(** ** [Serve] (gnet.go, lines 227 to 281) *)

(** The fields of [Options] that [Serve] reads; the struct and
    [loadOptions] are outside [gnet.go], and [Serve] here receives the
    loaded options. *)
Module Options.
Record Options := mk {
  ReusePort : bool;
  Logger : option Logger
}.
End Options.

Abbreviation Options := Options.Options.

(** [net.Listener] and [net.PacketConn] values, by a handle and the local
    address they report. *)
Record NetListener := mkNetListener {
  ln_handle : nat;
  ln_Addr : Addr
}.

Record PacketConn := mkPacketConn {
  pc_handle : nat;
  pc_LocalAddr : Addr
}.

(** The fields of the [listener] struct that [Serve] reads and writes (the
    struct is declared outside [gnet.go]). *)
Record listener := mkListener {
  network : string;
  addr : string;
  ln : option NetListener;
  pconn : option PacketConn;
  lnaddr : option Addr
}.

(** [var ln listener]: every field at its zero value. *)
Definition zeroListener : listener := mkListener "" "" None None None.

(** Modelled from the spec: how the inner [serve] (not in [gnet.go]) ends.
    The entry point "blocks until a Shutdown Action is produced or a fatal
    setup error occurs; returns that error (nil on graceful shutdown)". *)
Inductive ServeEnd :=
| GracefulShutdown
| FatalError (e : error).

Definition serve_error (r : ServeEnd) : option error :=
  match r with
  | GracefulShutdown => None
  | FatalError e => Some e
  end.

(** What [Serve] calls outside [gnet.go], on a state [World] of the
    operating system and of the rest of the program: each call returns its
    results and the state it leaves.  A listen call returns either the
    listener or the error. *)
Record Runtime (World : Type) := mkRuntime {
  GOOS : string;
  os_RemoveAll : string -> World -> option error * World;
  net_Listen : string -> string -> World -> (NetListener + error) * World;
  net_ListenPacket : string -> string -> World -> (PacketConn + error) * World;
  netpoll_ReusePortListen :
    string -> string -> World -> (NetListener + error) * World;
  netpoll_ReusePortListenPacket :
    string -> string -> World -> (PacketConn + error) * World;
  listener_close : listener -> World -> World;
  listener_renormalize : listener -> World -> option error * World;
  serve : EventHandler World -> listener -> Options -> World -> ServeEnd * World
}.

Arguments GOOS {World}.
Arguments os_RemoveAll {World}.
Arguments net_Listen {World}.
Arguments net_ListenPacket {World}.
Arguments netpoll_ReusePortListen {World}.
Arguments netpoll_ReusePortListenPacket {World}.
Arguments listener_close {World}.
Arguments listener_renormalize {World}.
Arguments serve {World}.

(** The calls [Serve] makes, in the order it makes them.  [EvPrintf lg err]
    is [lg.Printf(err.Error())]; [EvClose], [EvRenormalize] and [EvServe] are
    the calls of [ln.close], [ln.renormalize] and the inner [serve]. *)
Inductive Event :=
| EvRemoveAll (path : string)
| EvPrintf (lg : Logger) (err : error)
| EvListen (reusePort : bool) (network addr : string)
| EvListenPacket (reusePort : bool) (network addr : string)
| EvClose
| EvRenormalize
| EvServe.

(** The state [Serve] runs on: the world and the package variable
    [defaultLogger]. *)
Record Proc (World : Type) := mkProc {
  world : World;
  defaultLogger : Logger
}.

Arguments mkProc {World}.
Arguments world {World}.
Arguments defaultLogger {World}.

(** How a call of [Serve] ends. *)
Inductive outcome :=
| Returned (err : option error)
| Panicked.

(** A computation on the process state that records the calls it makes. *)
Definition M (World A : Type) : Type := Proc World -> (A * Proc World) * list Event.

Definition ret {World A : Type} (a : A) : M World A := fun p => ((a, p), []).

Definition bind {World A B : Type} (m : M World A) (k : A -> M World B) : M World B :=
  fun p =>
    let '((a, p1), t1) := m p in
    let '((b, p2), t2) := k a p1 in
    ((b, p2), (t1 ++ t2)%list).

Declare Scope serve_scope.
Delimit Scope serve_scope with serve.
Notation "x <-- m ;; k" := (bind m (fun x => k))
  (at level 100, m at next level, right associativity) : serve_scope.
Notation "m ;;; k" := (bind m (fun _ => k))
  (at level 100, right associativity) : serve_scope.

Section ServeDef.
Context {World : Type} (RT : Runtime World).

Local Open Scope serve_scope.
Local Abbreviation M := (M World).

(** A call that changes the world and yields a result. *)
Definition call {A : Type} (e : Event) (f : World -> A * World) : M A :=
  fun p =>
    let '(a, w) := f (world p) in
    ((a, mkProc w (defaultLogger p)), [e]).

Definition setDefaultLogger (lg : Logger) : M unit :=
  fun p => ((tt, mkProc (world p) lg), []).

(** [sniffErrorAndLog] (lines 294 to 297): [defaultLogger.Printf(err.Error())]
    when the error is not nil. *)
Definition sniffErrorAndLog (err : option error) : M unit :=
  match err with
  | Some e => fun p => ((tt, p), [EvPrintf (defaultLogger p) e])
  | None => ret tt
  end.

Definition isOneOf (s : string) (l : list string) : bool :=
  existsb (String.eqb s) l.

(** Lines 245 to 249. *)
Definition listenPacket (options : Options) (l : listener)
    : M (listener * option error) :=
  r <-- (if Options.ReusePort options
         then call (EvListenPacket true (network l) (addr l))
                   (netpoll_ReusePortListenPacket RT (network l) (addr l))
         else call (EvListenPacket false (network l) (addr l))
                   (net_ListenPacket RT (network l) (addr l))) ;;
  match r with
  | inl pc => ret (mkListener (network l) (addr l) (ln l) (Some pc) (lnaddr l), None)
  | inr e => ret (mkListener (network l) (addr l) (ln l) None (lnaddr l), Some e)
  end.

(** Lines 258 to 262. *)
Definition listenStream (options : Options) (l : listener)
    : M (listener * option error) :=
  r <-- (if Options.ReusePort options
         then call (EvListen true (network l) (addr l))
                   (netpoll_ReusePortListen RT (network l) (addr l))
         else call (EvListen false (network l) (addr l))
                   (net_Listen RT (network l) (addr l))) ;;
  match r with
  | inl nl => ret (mkListener (network l) (addr l) (Some nl) (pconn l) (lnaddr l), None)
  | inr e => ret (mkListener (network l) (addr l) None (pconn l) (lnaddr l), Some e)
  end.

(** [sniffErrorAndLog(os.RemoveAll(path))], lines 232 and 251. *)
Definition removeAll_logged (path : string) : M unit :=
  e <-- call (EvRemoveAll path) (os_RemoveAll RT path) ;;
  sniffErrorAndLog e.

(** The [switch] of lines 243 to 265. *)
Definition bindListener (options : Options) (l : listener)
    : M (listener * option error) :=
  if isOneOf (network l) ["udp"; "udp4"; "udp6"] then listenPacket options l
  else if String.eqb (network l) "unix" then
    removeAll_logged (addr l) ;;;
    if String.eqb (GOOS RT) "windows" then ret (l, Some ErrUnsupportedProtocol)
    else listenStream options l
  else if isOneOf (network l) ["tcp"; "tcp4"; "tcp6"] then listenStream options l
  else ret (l, Some ErrUnsupportedProtocol).

(** Lines 270 to 274: [None] is the nil dereference of [ln.ln.Addr()]. *)
Definition localAddr (l : listener) : option Addr :=
  match pconn l with
  | Some pc => Some (pc_LocalAddr pc)
  | None => ln_Addr <$> ln l
  end.

(** Lines 266 to 280: what follows the [switch]. *)
Definition startServer (eventHandler : EventHandler World) (options : Options)
    (l : listener) (err : option error) : M (listener * outcome) :=
  match err with
  | Some e => ret (l, Returned (Some e))
  | None =>
      match localAddr l with
      | None => ret (l, Panicked)
      | Some a =>
          let l := mkListener (network l) (addr l) (ln l) (pconn l) (Some a) in
          err <-- call EvRenormalize (listener_renormalize RT l) ;;
          match err with
          | Some e => ret (l, Returned (Some e))
          | None =>
              r <-- call EvServe (serve RT eventHandler l options) ;;
              ret (l, Returned (serve_error r))
          end
      end
  end.

(** The body of [Serve], up to each of its [return]s: the listener as the
    deferred function will find it, and the outcome. *)
Definition Serve_body (ToLower : string -> string)
    (eventHandler : EventHandler World) (address : string) (options : Options)
    : M (listener * outcome) :=
  match Options.Logger options with
  | Some lg => setDefaultLogger lg
  | None => ret tt
  end ;;;
  match parseAddr ToLower address with
  | None => ret (zeroListener, Panicked)
  | Some (nw, ad) =>
      l_err <-- bindListener options (mkListener nw ad None None None) ;;
      startServer eventHandler options (fst l_err) (snd l_err)
  end.

(** The deferred function of lines 229 to 234. *)
Definition Serve_deferred (l : listener) : M unit :=
  call EvClose (fun w => (tt, listener_close RT l w)) ;;;
  if String.eqb (network l) "unix"
  then removeAll_logged (addr l)
  else ret tt.

(** [Serve]: the body, then the deferred function, which leaves the result
    as the body set it. *)
Definition Serve (ToLower : string -> string)
    (eventHandler : EventHandler World) (address : string) (options : Options)
    : M outcome :=
  l_out <-- Serve_body ToLower eventHandler address options ;;
  Serve_deferred (fst l_out) ;;;
  ret (snd l_out).

End ServeDef.

(** The schemes of the address grammar. *)
Definition schemes : list string :=
  ["tcp"; "tcp4"; "tcp6"; "udp"; "udp4"; "udp6"; "unix"].

(** The calls that create a listener. *)
Definition is_listen (e : Event) : bool :=
  match e with
  | EvListen _ _ _ | EvListenPacket _ _ _ => true
  | _ => false
  end.

Definition is_printf (e : Event) : bool :=
  match e with
  | EvPrintf _ _ => true
  | _ => false
  end.

(** What [sniffErrorAndLog] prints on the logger [lg]. *)
Definition printed (lg : Logger) (err : option error) : list Event :=
  match err with
  | Some e => [EvPrintf lg e]
  | None => []
  end.

(** The runtime in which [os.RemoveAll] does to the world what it does in
    [RT] and reports no error. *)
Definition silent {World : Type} (RT : Runtime World) : Runtime World :=
  mkRuntime World (GOOS RT)
    (fun path w => (None, snd (os_RemoveAll RT path w)))
    (net_Listen RT) (net_ListenPacket RT)
    (netpoll_ReusePortListen RT) (netpoll_ReusePortListenPacket RT)
    (listener_close RT) (listener_renormalize RT) (serve RT).

(** The calls and results of a run, with the prints left out. *)
Definition quiet {World A : Type} (r : (A * Proc World) * list Event)
    : (A * Proc World) * list Event :=
  (r.1, filter (fun e => is_printf e = false) r.2).

(** The default logger once [Serve] has read the options (lines 238 to
    240). *)
Definition loggerAfter {World : Type} (options : Options) (p : Proc World) : Logger :=
  match Options.Logger options with
  | Some lg => lg
  | None => defaultLogger p
  end.


(** The calls a run is made of, by the part of [Serve] that makes them. *)
Definition bind_call (e : Event) : Prop :=
  is_listen e = true \/ is_printf e = true \/ exists path, e = EvRemoveAll path.

Definition start_call (e : Event) : Prop := e = EvRenormalize \/ e = EvServe.

Definition deferred_call (e : Event) : Prop :=
  e = EvClose \/ is_printf e = true \/ exists path, e = EvRemoveAll path.






(** ** A runtime for examples

    A world without state, on the given system: removals succeed or fail
    with [rmErr], binding succeeds unless [listenErr] is an error, the
    listener renormalizes, and the inner [serve] ends as [ending] says. *)
Definition exampleRuntime (goos : string) (rmErr listenErr : option error)
    (ending : ServeEnd) : Runtime unit :=
  mkRuntime unit goos
    (fun _ w => (rmErr, w))
    (fun _ a w => (match listenErr with
                   | Some e => inr e
                   | None => inl (mkNetListener 3 a)
                   end, w))
    (fun _ a w => (match listenErr with
                   | Some e => inr e
                   | None => inl (mkPacketConn 3 a)
                   end, w))
    (fun _ a w => (match listenErr with
                   | Some e => inr e
                   | None => inl (mkNetListener 3 a)
                   end, w))
    (fun _ a w => (match listenErr with
                   | Some e => inr e
                   | None => inl (mkPacketConn 3 a)
                   end, w))
    (fun _ w => w)
    (fun _ w => (None, w))
    (fun _ _ _ w => (ending, w)).

Definition exampleOptions : Options := Options.mk false None.

Definition exampleProc : Proc unit := mkProc tt StderrLogger.

(** * Part II: theorems *)

(** ** The buffer contract *)

Section BufferFacts.
Local Open Scope nat_scope.
Implicit Types (c : conn) (rb : RingBuffer) (n k : nat).

Lemma length_unread rb : length (unread rb) = length (filled rb) - r rb.
Proof. unfold unread. apply length_drop. Qed.

Lemma BufferLength_Read c : BufferLength c = length (Read c).1.
Proof. unfold BufferLength, Read. simpl. by rewrite length_app. Qed.

Lemma unread_advance k rb : unread (advance k rb) = drop k (unread rb).
Proof. unfold unread, advance. simpl. by rewrite drop_drop. Qed.

Lemma advance_0 rb : advance 0 rb = rb.
Proof. destruct rb as [f i]. unfold advance. simpl. by rewrite Nat.add_0_r. Qed.

Lemma ShiftN_size n c : (ShiftN n c).1 = n `min` BufferLength c.
Proof. unfold ShiftN. by case_match. Qed.

Lemma ShiftN_Read n c :
  (Read (ShiftN n c).2).1 = drop (n `min` BufferLength c) (Read c).1.
Proof.
  unfold ShiftN, Read, BufferLength.
  set (u := unread (inboundBuffer c)).
  destruct (Nat.leb_spec (n `min` (length u + length (buffer c))) (length u)) as [Hle|Hgt];
    simpl; rewrite unread_advance; fold u.
  - by rewrite drop_app_le.
  - rewrite drop_all. simpl. rewrite drop_app_ge by lia. done.
Qed.

(** The cursor only moves forward, and stays within the filled bytes. *)
Lemma ShiftN_cursor n c :
  cursor_ok (inboundBuffer c) ->
  cursor_ok (inboundBuffer (ShiftN n c).2)
  /\ r (inboundBuffer c) <= r (inboundBuffer (ShiftN n c).2).
Proof.
  unfold cursor_ok, ShiftN. intros Hok.
  pose proof (length_unread (inboundBuffer c)) as Hu.
  case_match eqn:Hcmp; simpl.
  - apply Nat.leb_le in Hcmp. lia.
  - lia.
Qed.

(** C1. [ReadN] peeks: for [n] within the buffered length it returns
    exactly [n] bytes, the first [n] bytes of [Read]; for a larger [n] it
    returns every buffered byte with their count; the count is always
    [min n available]; and the connection, hence what [Read] returns, is as
    it was before the call.  The function is total: no result is an error. *)
Theorem ReadN_peeks c n :
  let '((size, buf), c') := ReadN n c in
  (n <= BufferLength c -> size = n /\ length buf = n /\ buf = take n (Read c).1)
  /\ (BufferLength c < n -> size = BufferLength c /\ buf = (Read c).1)
  /\ size = n `min` BufferLength c
  /\ length buf = size
  /\ Read c' = Read c.
Proof.
  unfold ReadN. rewrite !BufferLength_Read.
  set (l := (Read c).1).
  split; [intros Hle | split; [intros Hlt | split; [ | split]]].
  - rewrite length_take. repeat split; [lia | lia | f_equal; lia].
  - split; [lia | rewrite take_ge; [done | lia]].
  - done.
  - rewrite length_take. lia.
  - done.
Qed.

(** The statement at a buffer of four unconsumed bytes, two of them in the
    ring buffer behind a consumed one, for a short and for a long read. *)
Lemma ReadN_peeks_witness :
  let c := mkConn (mkRing [Byte.x61; Byte.x62; Byte.x63] 1) [Byte.x64; Byte.x65] in
  (3 <= BufferLength c
   /\ (ReadN 3 c).1 = (3, [Byte.x62; Byte.x63; Byte.x64]) /\ Read (ReadN 3 c).2 = Read c)
  /\ (BufferLength c < 9
      /\ (ReadN 9 c).1 = (4, [Byte.x62; Byte.x63; Byte.x64; Byte.x65])).
Proof.
  intros c.
  pose proof (ReadN_peeks c 3) as H3. pose proof (ReadN_peeks c 9) as H9.
  destruct (ReadN 3 c) as [[s3 b3] c3]. destruct (ReadN 9 c) as [[s9 b9] c9].
  destruct H3 as (H3 & _ & _ & _ & Hc3). destruct H9 as (_ & H9 & _).
  assert (Hle : 3 <= BufferLength c) by (vm_compute; lia).
  assert (Hlt : BufferLength c < 9) by (vm_compute; lia).
  destruct (H3 Hle) as (-> & _ & ->). destruct (H9 Hlt) as (-> & ->).
  repeat split; assumption.
Defined.

(** C2. [ShiftN] returns [min n previous-length] and leaves exactly that
    many bytes fewer: what [Read] returns afterwards is what it returned
    before without its first [size] bytes.  On an empty buffer every
    [ShiftN] returns 0 and leaves the connection as it is; the function is
    total, so it never fails. *)
Theorem ShiftN_consumes c n :
  let '(size, c') := ShiftN n c in
  size = n `min` BufferLength c
  /\ BufferLength c' = BufferLength c - size
  /\ (Read c').1 = drop size (Read c).1
  /\ (BufferLength c = 0 -> size = 0 /\ c' = c)
  /\ (BufferLength c' = 0 -> forall m, ShiftN m c' = (0, c')).
Proof.
  assert (Hempty : forall c0 m, BufferLength c0 = 0 -> ShiftN m c0 = (0, c0)).
  { intros c0 m H0. unfold ShiftN. rewrite H0, Nat.min_0_r. simpl.
    rewrite advance_0. by destruct c0. }
  pose proof (ShiftN_size n c) as Hs. pose proof (ShiftN_Read n c) as Hr.
  destruct (ShiftN n c) as [size c'] eqn:HS. cbn [fst snd] in Hs, Hr. subst size.
  split; [done | split; [ | split; [done | split]]].
  - rewrite (BufferLength_Read c'), Hr, length_drop, <- BufferLength_Read. done.
  - intros H0. rewrite (Hempty c n H0) in HS. injection HS as Hsz Hc. split; [lia | done].
  - intros H0 m. by apply Hempty.
Qed.

(** C3. [ResetBuffer] empties the ring buffer and the staging bytes,
    whatever they held: [BufferLength] is 0 afterwards and [Read] returns
    no byte. *)
Theorem ResetBuffer_empties c :
  unread (inboundBuffer (ResetBuffer c)) = []
  /\ r (inboundBuffer (ResetBuffer c)) = 0
  /\ buffer (ResetBuffer c) = []
  /\ (Read (ResetBuffer c)).1 = []
  /\ BufferLength (ResetBuffer c) = 0.
Proof. by repeat split. Qed.

End BufferFacts.

(** The statement at an empty connection, and at one that a shift empties. *)
Lemma ShiftN_consumes_witness :
  let c := mkConn (mkRing [Byte.x61; Byte.x62] 2) [] in
  let d := mkConn (mkRing [Byte.x61; Byte.x62] 1) [Byte.x63] in
  BufferLength c = 0 /\ ShiftN 7 c = (0, c)
  /\ (ShiftN 7 d).1 = 2 /\ BufferLength (ShiftN 7 d).2 = 0
  /\ ShiftN 1 (ShiftN 7 d).2 = (0, (ShiftN 7 d).2).
Proof.
  intros c d.
  pose proof (ShiftN_consumes c 7) as Hc. pose proof (ShiftN_consumes d 7) as Hd.
  destruct (ShiftN 7 c) as [sc c'] eqn:Ec. destruct (ShiftN 7 d) as [sd d'] eqn:Ed.
  destruct Hc as (_ & _ & _ & Hc & _). destruct Hd as (Hsd & Hld & _ & _ & Hd).
  assert (H0 : BufferLength c = 0) by reflexivity.
  destruct (Hc H0) as [-> ->].
  assert (Hd0 : BufferLength d' = 0) by (rewrite Hld, Hsd; reflexivity).
  repeat split; [exact Hsd | exact Hd0 | exact (Hd Hd0 1)].
Defined.

(** ** [parseAddr] *)

Section StringFacts.
Local Open Scope string_scope.
Local Open Scope Z_scope.
Implicit Types (s sep t : string) (n k : nat).

Lemma slice_from_0 s : slice_from 0 s = s.
Proof. by destruct s. Qed.

Lemma length_slice_from n s :
  String.length (slice_from n s) = (String.length s - n)%nat.
Proof.
  revert s. induction n as [|n IH]; intros [|c s]; simpl; auto.
Qed.

Lemma HasPrefix_empty_l sep : sep <> "" -> HasPrefix "" sep = false.
Proof. by destruct sep. Qed.

Lemma HasPrefix_inv s sep :
  HasPrefix s sep = true -> s = sep ++ slice_from (String.length sep) s.
Proof.
  revert s. induction sep as [|p sep IH]; intros s H.
  - by rewrite slice_from_0.
  - destruct s as [|c s]; [done|]. cbn [HasPrefix] in H.
    destruct (Ascii.eqb_spec c p) as [->|]; [|done].
    cbn [String.length slice_from String.append]. f_equal. by apply IH.
Qed.

Lemma HasPrefix_app sep t : HasPrefix (sep ++ t) sep = true.
Proof.
  induction sep as [|p sep IH]; [done|].
  cbn [String.append HasPrefix]. by rewrite Ascii.eqb_refl.
Qed.

Lemma HasPrefix_slice_to n s sep :
  HasPrefix (slice_to n s) sep = true -> HasPrefix s sep = true.
Proof.
  revert n s. induction sep as [|p sep IH]; intros n s H; [done|].
  destruct n as [|n], s as [|c s]; try done.
  cbn [slice_to HasPrefix] in *.
  destruct (Ascii.eqb c p); [|done]. by eapply IH.
Qed.

Lemma Index_lower_bound s sep : -1 <= Index s sep.
Proof.
  induction s as [|c s IH]; simpl.
  - destruct (HasPrefix "" sep); lia.
  - destruct (HasPrefix (String c s) sep); [lia|].
    destruct (Z.ltb_spec (Index s sep) 0); lia.
Qed.

(** Where [Index] is not negative, the string is the bytes before the
    instance, the instance, and the bytes after it. *)
Lemma Index_split s sep :
  0 <= Index s sep ->
  s = slice_to (Z.to_nat (Index s sep)) s ++ sep
      ++ slice_from (Z.to_nat (Index s sep) + String.length sep) s.
Proof.
  induction s as [|c s IH]; simpl.
  - destruct (HasPrefix "" sep) eqn:Hp; [|lia].
    intros _. by apply HasPrefix_inv in Hp.
  - destruct (HasPrefix (String c s) sep) eqn:Hp.
    + intros _. by apply HasPrefix_inv in Hp.
    + destruct (Z.ltb_spec (Index s sep) 0) as [|Hi]; [lia|].
      intros _. rewrite Z2Nat.inj_add by lia.
      change (Z.to_nat 1) with 1%nat. rewrite Nat.add_1_r. simpl.
      f_equal. by apply IH.
Qed.

(** Where the string holds an instance, [Index] is not negative. *)
Lemma Index_complete a sep b : 0 <= Index (a ++ sep ++ b) sep.
Proof.
  induction a as [|c a IH].
  - change ("" ++ sep ++ b) with (sep ++ b).
    destruct (sep ++ b) as [|c t] eqn:E; cbn [Index]; rewrite <- E, HasPrefix_app; lia.
  - cbn [String.append Index].
    destruct (HasPrefix (String c (a ++ sep ++ b)) sep); [lia|].
    destruct (Z.ltb_spec (Index (a ++ sep ++ b) sep) 0); lia.
Qed.

(** The bytes before the first instance hold no instance. *)
Lemma Index_first s sep :
  sep <> "" -> 0 <= Index s sep ->
  Index (slice_to (Z.to_nat (Index s sep)) s) sep < 0.
Proof.
  intros Hsep. induction s as [|c s IH]; simpl.
  - rewrite HasPrefix_empty_l by done. lia.
  - destruct (HasPrefix (String c s) sep) eqn:Hp.
    + intros _. simpl. rewrite HasPrefix_empty_l by done. lia.
    + destruct (Z.ltb_spec (Index s sep) 0) as [|Hi]; [lia|].
      intros _. rewrite Z2Nat.inj_add by lia.
      change (Z.to_nat 1) with 1%nat. rewrite Nat.add_1_r.
      cbn [slice_to Index].
      destruct (HasPrefix (String c (slice_to (Z.to_nat (Index s sep)) s)) sep) eqn:Hq.
      * apply (HasPrefix_slice_to (S (Z.to_nat (Index s sep))) (String c s)) in Hq.
        congruence.
      * specialize (IH Hi).
        destruct (Z.ltb_spec (Index (slice_to (Z.to_nat (Index s sep)) s) sep) 0); lia.
Qed.

(** The length of the string is enough fuel for the loop of [Split]: more
    of it gives the same list. *)
Lemma genSplit_fuel sep :
  sep <> "" ->
  forall f1 f2 s,
    (String.length s <= f1)%nat -> (String.length s <= f2)%nat ->
    genSplit f1 s sep = genSplit f2 s sep.
Proof.
  intros Hsep.
  assert (Hstop : forall f, genSplit f "" sep = [""]).
  { intros [|f]; simpl; [done|]. by rewrite HasPrefix_empty_l. }
  induction f1 as [|f1 IH]; intros f2 s H1 H2.
  - destruct s; [|simpl in H1; lia]. by rewrite !Hstop.
  - destruct f2 as [|f2].
    { destruct s; [|simpl in H2; lia]. by rewrite !Hstop. }
    simpl. destruct (Z.ltb_spec (Index s sep) 0); [done|].
    f_equal. apply IH; rewrite length_slice_from;
      destruct sep; simpl; try done; lia.
Qed.

(** Joining what [Split] returns gives the string back. *)
Lemma Join_Split s sep : sep <> "" -> Join (Split s sep) sep = s.
Proof.
  intros Hsep. unfold Split.
  assert (Hne : forall f t, genSplit f t sep <> []).
  { intros [|f] t; simpl; [done|]. by destruct (Index t sep <? 0). }
  assert (H : forall f t, (String.length t <= f)%nat -> Join (genSplit f t sep) sep = t).
  { induction f as [|f IH]; intros t Hf; [done|].
    cbn [genSplit]. destruct (Z.ltb_spec (Index t sep) 0) as [|Hm]; [done|].
    set (t' := slice_from (Z.to_nat (Index t sep) + String.length sep) t).
    assert (Ht' : (String.length t' <= f)%nat).
    { unfold t'. rewrite length_slice_from. destruct sep; simpl; [done | lia]. }
    specialize (IH t' Ht'). specialize (Hne f t').
    cbn [Join]. destruct (genSplit f t' sep) as [|x rest]; [done|].
    rewrite IH. symmetry. by apply Index_split. }
  by apply H.
Qed.

End StringFacts.

Section ParseAddrFacts.
Local Open Scope string_scope.
Local Open Scope Z_scope.
Implicit Types (s sep t addr : string).

(** The first two substrings of a split, when the separator occurs. *)
Lemma Split_first_two s sep :
  sep <> "" -> 0 <= Index s sep ->
  let s' := slice_from (Z.to_nat (Index s sep) + String.length sep) s in
  exists rest,
    Split s sep =
      slice_to (Z.to_nat (Index s sep)) s
      :: (if Index s' sep <? 0 then s' else slice_to (Z.to_nat (Index s' sep)) s')
      :: rest.
Proof.
  intros Hsep Hm s'. unfold Split.
  rewrite (genSplit_fuel sep Hsep _ (S (S (String.length s))) s) by lia.
  cbn [genSplit]. fold s'.
  destruct (Z.ltb_spec (Index s sep) 0) as [|_]; [lia|].
  destruct (Z.ltb_spec (Index s' sep) 0).
  - by exists [].
  - by eexists.
Qed.

Lemma Contains_false s sep : Contains s sep = false <-> Index s sep < 0.
Proof. unfold Contains. destruct (Z.leb_spec 0 (Index s sep)); split; (done || lia). Qed.

Lemma Contains_true s sep : Contains s sep = true <-> 0 <= Index s sep.
Proof. unfold Contains. destruct (Z.leb_spec 0 (Index s sep)); split; (done || lia). Qed.

(** [Contains] holds exactly of the strings in which [sep] occurs. *)
Lemma Contains_spec s sep :
  Contains s sep = true <-> exists a b, s = a ++ sep ++ b.
Proof.
  rewrite Contains_true. split.
  - intros Hm. eexists _, _. by apply Index_split.
  - intros (a & b & ->). apply Index_complete.
Qed.

(** What [parseAddr] returns when the lower-cased input holds the
    separator: the bytes before its first instance, and the bytes from
    there to the next instance, or to the end when there is none. *)
Lemma parseAddr_cut ToLower addr :
  Contains (ToLower addr) "://" = true ->
  exists nw ad rest,
    parseAddr ToLower addr = Some (nw, ad)
    /\ ToLower addr = nw ++ "://" ++ ad ++ rest
    /\ Contains nw "://" = false
    /\ Contains ad "://" = false
    /\ (rest = "" \/ HasPrefix rest "://" = true).
Proof.
  intros Hc. unfold parseAddr. rewrite Hc.
  set (l := ToLower addr) in *.
  assert (Hsep : "://" <> "") by done.
  apply Contains_true in Hc.
  destruct (Split_first_two l "://" Hsep Hc) as [rest ->].
  pose proof (Index_split l "://" Hc) as Hl.
  pose proof (Index_first l "://" Hsep Hc) as Hnw.
  set (nw := slice_to (Z.to_nat (Index l "://")) l) in *.
  set (l' := slice_from (Z.to_nat (Index l "://") + String.length "://") l) in *.
  cbn [lookup list_lookup mbind option_bind].
  destruct (Z.ltb_spec (Index l' "://") 0) as [Hneg|Hpos].
  - exists nw, l', "". repeat split.
    + rewrite Hl at 1. f_equal. f_equal. clear. induction l'; simpl; congruence.
    + by apply Contains_false.
    + by apply Contains_false.
    + by left.
  - pose proof (Index_split l' "://" Hpos) as Hl'.
    pose proof (Index_first l' "://" Hsep Hpos) as Had.
    exists nw, (slice_to (Z.to_nat (Index l' "://")) l'),
      ("://" ++ slice_from (Z.to_nat (Index l' "://") + String.length "://") l').
    repeat split.
    + rewrite Hl at 1. f_equal. f_equal. exact Hl'.
    + by apply Contains_false.
    + by apply Contains_false.
    + right. apply HasPrefix_app.
Qed.

(** [parseAddr] never indexes [pair] out of range. *)
Lemma parseAddr_total ToLower addr :
  exists nw ad, parseAddr ToLower addr = Some (nw, ad).
Proof.
  destruct (Contains (ToLower addr) "://") eqn:Hc.
  - destruct (parseAddr_cut ToLower addr Hc) as (nw & ad & _ & H & _). eauto.
  - unfold parseAddr. rewrite Hc. eauto.
Qed.

Lemma isUpper_lowerByte c : isUpper (lowerByte c) = false.
Proof. destruct c as [[] [] [] [] [] [] [] []]; reflexivity. Qed.

Lemma hasUpper_asciiToLower s : hasUpper (asciiToLower s) = false.
Proof.
  induction s as [|c s IH]; [done|].
  cbn [asciiToLower hasUpper]. by rewrite isUpper_lowerByte, IH.
Qed.

Lemma hasUpper_app s t : hasUpper (s ++ t) = hasUpper s || hasUpper t.
Proof.
  induction s as [|c s IH]; [done|].
  cbn [String.append hasUpper]. by rewrite IH, orb_assoc.
Qed.

(** [asciiToLower] leaves the bytes of the separator alone, so the
    separator occurs in the lower-cased string where it occurs in the
    input. *)
Lemma HasPrefix_asciiToLower s :
  HasPrefix (asciiToLower s) "://" = HasPrefix s "://".
Proof.
  assert (Hc : forall c p, p = ":"%char \/ p = "/"%char ->
                 Ascii.eqb (lowerByte c) p = Ascii.eqb c p).
  { intros c p [-> | ->]; destruct c as [[] [] [] [] [] [] [] []]; reflexivity. }
  destruct s as [|a [|b [|c s]]]; cbn [asciiToLower HasPrefix];
    rewrite ?Hc by auto; reflexivity.
Qed.

Lemma Index_asciiToLower s : Index (asciiToLower s) "://" = Index s "://".
Proof.
  assert (Hcons : forall c t, Index (String c t) "://" =
            if HasPrefix (String c t) "://" then 0
            else if Index t "://" <? 0 then -1 else Index t "://" + 1)
    by reflexivity.
  induction s as [|c s IH]; [done|].
  rewrite (Hcons c s), <- HasPrefix_asciiToLower, <- IH.
  change (asciiToLower (String c s)) with (String (lowerByte c) (asciiToLower s)).
  by rewrite Hcons.
Qed.

Lemma asciiToLower_id s : hasUpper s = false -> asciiToLower s = s.
Proof.
  induction s as [|c s IH]; [done|].
  cbn [hasUpper asciiToLower]. intros [Hc Hs]%orb_false_elim.
  unfold lowerByte. by rewrite Hc, IH.
Qed.

End ParseAddrFacts.

Section ParseAddrClaims.
Local Open Scope string_scope.
Implicit Types (addr : string).

(** C4, with the address lower-cased.  [parseAddr "tcp://127.0.0.1:9000"] is the network
    "tcp" and the address "127.0.0.1:9000".  For an input in which no
    "://" occurs, such as "127.0.0.1:9000", the network is "tcp" and the
    address is the lower-cased input; it is the whole input when lower-casing
    leaves the input as it is, as for an input of ASCII bytes without the
    letters 'A' to 'Z'.  The statements on [asciiToLower] are on inputs of
    ASCII bytes, where it is what [strings.ToLower] does. *)
Theorem parseAddr_scheme_and_default :
  parseAddr asciiToLower "tcp://127.0.0.1:9000" = Some ("tcp", "127.0.0.1:9000")
  /\ parseAddr asciiToLower "127.0.0.1:9000" = Some ("tcp", "127.0.0.1:9000")
  /\ (forall ToLower,
        ToLower "tcp://127.0.0.1:9000" = "tcp://127.0.0.1:9000" ->
        parseAddr ToLower "tcp://127.0.0.1:9000" = Some ("tcp", "127.0.0.1:9000"))
  /\ (forall ToLower addr,
        Contains (ToLower addr) "://" = false ->
        parseAddr ToLower addr = Some ("tcp", ToLower addr))
  /\ (forall ToLower addr,
        Contains addr "://" = false -> ToLower addr = addr ->
        parseAddr ToLower addr = Some ("tcp", addr))
  /\ (forall addr,
        isASCII addr = true ->
        Contains addr "://" = false ->
        parseAddr asciiToLower addr = Some ("tcp", asciiToLower addr))
  /\ (forall addr,
        isASCII addr = true ->
        Contains addr "://" = false -> hasUpper addr = false ->
        parseAddr asciiToLower addr = Some ("tcp", addr)).
Proof.
  assert (Hno : forall ToLower addr,
            Contains (ToLower addr) "://" = false ->
            parseAddr ToLower addr = Some ("tcp", ToLower addr)).
  { intros ToLower addr Hc. unfold parseAddr. by rewrite Hc. }
  assert (Hascii : forall addr,
            Contains addr "://" = false ->
            parseAddr asciiToLower addr = Some ("tcp", asciiToLower addr)).
  { intros addr Hc. apply Hno. unfold Contains in *. by rewrite Index_asciiToLower. }
  split; [reflexivity|]. split; [reflexivity|].
  split; [intros ToLower Hid; unfold parseAddr; rewrite Hid; reflexivity|].
  split; [exact Hno|].
  split; [intros ToLower addr Hc Hid; rewrite <- Hid at 2; apply Hno; by rewrite Hid|].
  split; [intros addr _; exact (Hascii addr)|].
  intros addr _ Hc Hup. rewrite Hascii by done. by rewrite asciiToLower_id.
Qed.

(** The statement at "localhost:9000" and at "LOCALHOST:9000". *)
Lemma parseAddr_scheme_and_default_witness :
  parseAddr asciiToLower "localhost:9000" = Some ("tcp", "localhost:9000")
  /\ parseAddr asciiToLower "LOCALHOST:9000"
     = Some ("tcp", asciiToLower "LOCALHOST:9000").
Proof.
  destruct parseAddr_scheme_and_default as (_ & _ & _ & _ & _ & Hlow & Hid).
  split.
  - apply Hid; reflexivity.
  - apply Hlow; reflexivity.
Defined.

(** An input without "://" whose address is not the whole input: the
    address of "LOCALHOST:9000" is "localhost:9000". *)
Lemma parseAddr_whole_input_counterexample :
  Contains "LOCALHOST:9000" "://" = false
  /\ parseAddr asciiToLower "LOCALHOST:9000" = Some ("tcp", "localhost:9000")
  /\ ~ (forall addr,
          Contains addr "://" = false ->
          parseAddr asciiToLower addr = Some ("tcp", addr)).
Proof.
  split; [reflexivity|]. split; [reflexivity|].
  intros H. specialize (H "LOCALHOST:9000" eq_refl). discriminate H.
Qed.

(** C10.  [parseAddr] splits the lower-cased input, [ToLower addr], and
    nothing else: without "://" in it the result is "tcp" and the whole
    lower-cased input; with "://" in it the network is what stands before
    the first "://" and the address is what stands between the first and
    the second "://" (or the end), so that what follows a second "://" is
    in neither.  With the ASCII lower-casing neither result holds an
    upper-case letter; "TCP://HOST:9000" gives "tcp" and "host:9000", and
    "tcp://a://b" gives "tcp" and "a". *)
Theorem parseAddr_lowercases_and_truncates (ToLower : string -> string) addr :
  (Contains (ToLower addr) "://" = false ->
     parseAddr ToLower addr = Some ("tcp", ToLower addr))
  /\ (Contains (ToLower addr) "://" = true ->
      exists nw ad rest,
        parseAddr ToLower addr = Some (nw, ad)
        /\ ToLower addr = nw ++ "://" ++ ad ++ rest
        /\ Contains nw "://" = false
        /\ Contains ad "://" = false
        /\ (rest = "" \/ HasPrefix rest "://" = true))
  /\ (forall nw ad,
        parseAddr asciiToLower addr = Some (nw, ad) ->
        hasUpper nw = false /\ hasUpper ad = false)
  /\ parseAddr asciiToLower "TCP://HOST:9000" = Some ("tcp", "host:9000")
  /\ parseAddr asciiToLower "tcp://a://b" = Some ("tcp", "a").
Proof.
  split; [|split; [|split; [|split; reflexivity]]].
  - intros Hc. unfold parseAddr. by rewrite Hc.
  - apply parseAddr_cut.
  - intros nw ad Hp.
    pose proof (hasUpper_asciiToLower addr) as Hlow.
    destruct (Contains (asciiToLower addr) "://") eqn:Hc.
    + destruct (parseAddr_cut asciiToLower addr Hc)
        as (nw' & ad' & rest & Hp' & Hl & _).
      rewrite Hp in Hp'. injection Hp' as -> ->.
      rewrite Hl, !hasUpper_app in Hlow.
      apply orb_false_elim in Hlow as [Hnw Hlow].
      apply orb_false_elim in Hlow as [_ Hlow].
      apply orb_false_elim in Hlow as [Had _]. done.
    + unfold parseAddr in Hp. rewrite Hc in Hp. by injection Hp as <- <-.
Qed.

(** The statement at "UDP://Host:53://x", whose lower-cased form holds the
    separator twice, and at "Host:53". *)
Lemma parseAddr_lowercases_and_truncates_witness :
  parseAddr asciiToLower "Host:53" = Some ("tcp", "host:53")
  /\ exists rest,
       parseAddr asciiToLower "UDP://Host:53://x" = Some ("udp", "host:53")
       /\ asciiToLower "UDP://Host:53://x" = "udp" ++ "://" ++ "host:53" ++ rest.
Proof.
  split.
  - apply (parseAddr_lowercases_and_truncates asciiToLower "Host:53"). reflexivity.
  - destruct (parseAddr_lowercases_and_truncates asciiToLower "UDP://Host:53://x")
      as (_ & H & _).
    destruct (H eq_refl) as (nw & ad & rest & Hp & Hl & _).
    exists rest.
    assert (Hv : parseAddr asciiToLower "UDP://Host:53://x" = Some ("udp", "host:53"))
      by reflexivity.
    rewrite Hv in Hp. injection Hp as <- <-. by split.
Defined.

End ParseAddrClaims.

(** ** [parseAddr]: further facts *)

Section ParseAddrMore.
Local Open Scope string_scope.
Local Open Scope Z_scope.
Implicit Types (s t nw ad addr : string).

Lemma slice_to_app s t : slice_to (String.length s) (s ++ t) = s.
Proof.
  induction s as [|c s IH]; [by destruct t|].
  cbn [String.length String.append slice_to]. by rewrite IH.
Qed.

Lemma slice_from_app s t (k : nat) :
  slice_from (String.length s + k) (s ++ t) = slice_from k t.
Proof. induction s as [|c s IH]; [done|]. exact IH. Qed.

(** An instance of "://" cannot begin in front of another one and reach
    into it: where the bytes before a "://" hold no instance, [Index] finds
    that one. *)
Lemma Index_separator nw t :
  Contains nw "://" = false ->
  Index (nw ++ "://" ++ t) "://" = Z.of_nat (String.length nw).
Proof.
  induction nw as [|c nw IH]; intros Hc.
  - change ("" ++ "://" ++ t) with ("://" ++ t). reflexivity.
  - apply Contains_false in Hc. cbn [Index] in Hc.
    destruct (HasPrefix (String c nw) "://") eqn:Hp; [lia|].
    assert (Hnw : Contains nw "://" = false).
    { apply Contains_false. destruct (Z.ltb_spec (Index nw "://") 0); lia. }
    specialize (IH Hnw).
    assert (Hcons : forall a u, Index (String a u) "://" =
              if HasPrefix (String a u) "://" then 0
              else if Index u "://" <? 0 then -1 else Index u "://" + 1)
      by reflexivity.
    change (String c nw ++ "://" ++ t) with (String c (nw ++ "://" ++ t)).
    rewrite Hcons, IH.
    assert (Hq : HasPrefix (String c (nw ++ "://" ++ t)) "://" = false).
    { destruct nw as [|d [|e nw]]; cbn [String.append HasPrefix] in *.
      - destruct (Ascii.eqb c ":"); reflexivity.
      - destruct (Ascii.eqb c ":"); [|reflexivity].
        destruct (Ascii.eqb d "/"); reflexivity.
      - exact Hp. }
    rewrite Hq.
    destruct (Z.ltb_spec (Z.of_nat (String.length nw)) 0); [lia|].
    cbn [String.length]. lia.
Qed.

(** X1.  [parseAddr] never indexes [pair] out of range, whatever the input
    and the lower-casing, and "://" occurs in neither of its results. *)
Theorem parseAddr_results_hold_no_separator (ToLower : string -> string) addr :
  exists nw ad,
    parseAddr ToLower addr = Some (nw, ad)
    /\ Contains nw "://" = false
    /\ Contains ad "://" = false.
Proof.
  destruct (Contains (ToLower addr) "://") eqn:Hc.
  - destruct (parseAddr_cut ToLower addr Hc) as (nw & ad & _ & Hp & _ & Hn & Ha & _).
    by exists nw, ad.
  - exists "tcp", (ToLower addr). unfold parseAddr. rewrite Hc. by repeat split.
Qed.

(** X2.  Parsing gives back the parts of a formatted address: where the
    lower-cased input is a network, "://" and an address, neither of which
    holds "://", [parseAddr] returns that network and that address; the
    address may be empty, and so may the network. *)
Theorem parseAddr_of_network_and_address (ToLower : string -> string) addr nw ad :
  ToLower addr = nw ++ "://" ++ ad ->
  Contains nw "://" = false ->
  Contains ad "://" = false ->
  parseAddr ToLower addr = Some (nw, ad).
Proof.
  intros Hl Hn Ha. unfold parseAddr. rewrite Hl.
  assert (Hc : Contains (nw ++ "://" ++ ad) "://" = true).
  { apply Contains_spec. by exists nw, ad. }
  rewrite Hc.
  assert (Hsep : "://" <> "") by done.
  pose proof (Index_separator nw ad Hn) as Hm.
  destruct (Split_first_two (nw ++ "://" ++ ad) "://" Hsep) as [rest ->].
  { rewrite Hm. lia. }
  rewrite Hm, Nat2Z.id, slice_to_app, slice_from_app.
  change (slice_from (String.length "://") ("://" ++ ad)) with ad.
  apply Contains_false in Ha.
  destruct (Z.ltb_spec (Index ad "://") 0); [done | lia].
Qed.

End ParseAddrMore.

(** The statement at "UDP://Host:53", and at "tcp://", whose address is
    empty. *)
Lemma parseAddr_of_network_and_address_witness :
  parseAddr asciiToLower "UDP://Host:53" = Some ("udp", "host:53")%string
  /\ parseAddr asciiToLower "tcp://" = Some ("tcp", "")%string.
Proof.
  split.
  - apply (parseAddr_of_network_and_address asciiToLower
             "UDP://Host:53" "udp" "host:53"); reflexivity.
  - apply (parseAddr_of_network_and_address asciiToLower "tcp://" "tcp" "");
      reflexivity.
Defined.

(** ** [EventServer] *)

Section EventServerFacts.
Context {St : Type}.

(** C9.  Every callback of [EventServer] hands the state back as it
    received it and returns zero values: the action [None] (numbered 0), no
    output bytes (the nil slice), a zero delay.  A handler that embeds
    [EventServer] and declares [React] alone has [EventServer]'s callbacks
    everywhere else. *)
Theorem EventServer_callbacks_are_no_ops
    (s : Server) (c : conn) (err : option error) (frame : bytes) (st : St) :
  OnInitComplete EventServer.handler s st = (Action.None, st)
  /\ OnShutdown EventServer.handler s st = st
  /\ OnOpened EventServer.handler c st = ((None, Action.None), st)
  /\ OnClosed EventServer.handler c err st = (Action.None, st)
  /\ PreWrite EventServer.handler st = st
  /\ React EventServer.handler frame c st = ((None, Action.None), st)
  /\ Tick EventServer.handler st = ((0%Z, Action.None), st)
  /\ Action.to_Z Action.None = 0%Z
  /\ (forall react,
        React (embed_with_React react) = react
        /\ OnInitComplete (embed_with_React react) s st = (Action.None, st)
        /\ OnShutdown (embed_with_React react) s st = st
        /\ OnOpened (embed_with_React react) c st = ((None, Action.None), st)
        /\ OnClosed (embed_with_React react) c err st = (Action.None, st)
        /\ PreWrite (embed_with_React react) st = st
        /\ Tick (embed_with_React react) st = ((0%Z, Action.None), st)).
Proof. repeat split. Qed.

End EventServerFacts.

(** ** [CountConnections] *)

Section CountFacts.
Local Open Scope Z_scope.
Implicit Types (w z : Z) (set : list eventloop) (tr : list ConnEvent) (i n : nat).

Lemma wrap_small w z :
  0 < w -> - 2 ^ (w - 1) <= z < 2 ^ (w - 1) -> wrap w z = z.
Proof.
  intros Hw Hz. unfold wrap.
  replace (2 ^ w) with (2 * 2 ^ (w - 1)).
  - rewrite Z.mod_small; lia.
  - rewrite <- Z.pow_succ_r by lia. f_equal. lia.
Qed.

Lemma wrap_add_l w a b : wrap w (wrap w a + b) = wrap w (a + b).
Proof.
  unfold wrap. f_equal.
  replace ((a + 2 ^ (w - 1)) mod 2 ^ w - 2 ^ (w - 1) + b + 2 ^ (w - 1))
    with ((a + 2 ^ (w - 1)) mod 2 ^ w + b) by lia.
  rewrite Zplus_mod_idemp_l. f_equal. lia.
Qed.

Lemma wrap_add_r w a b : wrap w (a + wrap w b) = wrap w (a + b).
Proof. by rewrite Z.add_comm, wrap_add_l, Z.add_comm. Qed.

Lemma wrap_wrap w z : wrap w (wrap w z) = wrap w z.
Proof. pose proof (wrap_add_l w z 0) as H. by rewrite !Z.add_0_r in H. Qed.

(** [CountConnections] is the wrapped sum of the counters. *)
Lemma CountConnections_sum intSize s :
  0 < intSize ->
  CountConnections intSize s
  = wrap intSize (sum_connCount (subEventLoopSet (svr s))).
Proof.
  intros Hw. unfold CountConnections.
  generalize (subEventLoopSet (svr s)) as set. intros set.
  assert (H : forall set (idx : Z) acc, wrap intSize acc = acc ->
    iterate idx set
      (fun _ el count => (true, wrap intSize (count + wrap intSize (connCount el))))
      acc = wrap intSize (acc + sum_connCount set)).
  { clear set. induction set as [|el set IH]; intros idx acc Hacc.
    - unfold sum_connCount. simpl. by rewrite Z.add_0_r.
    - cbn [iterate]. rewrite IH by apply wrap_wrap.
      unfold sum_connCount. cbn [fmap list_fmap foldr].
      rewrite wrap_add_l.
      set (rest := foldr Z.add 0 (connCount <$> set)).
      replace (acc + wrap intSize (connCount el) + rest)
        with (acc + rest + wrap intSize (connCount el)) by lia.
      rewrite wrap_add_r. f_equal. lia. }
  apply H. apply wrap_small; [done|].
  pose proof (Z.pow_pos_nonneg 2 (intSize - 1)). lia.
Qed.

Lemma opens_cons e tr :
  opens (e :: tr) - closes (e :: tr)
  = (if is_open e then 1 else -1) + (opens tr - closes tr).
Proof.
  unfold opens, closes. rewrite !filter_cons.
  destruct (is_open e); repeat case_decide; try done; simpl length; lia.
Qed.

Lemma open_on_cons i e tr :
  open_on i (e :: tr)
  = (if decide (event_loop e = i) then if is_open e then 1 else -1 else 0)
    + open_on i tr.
Proof.
  unfold open_on. rewrite filter_cons.
  case_decide; [|lia]. by rewrite opens_cons.
Qed.

(** A loop's counter after a history is the wrapped count of the
    connections the history leaves open on it, added to what it held. *)
Lemma conn_run_lookup tr : forall set i el,
  set !! i = Some el ->
  wrap 32 (connCount el) = connCount el ->
  conn_run set tr !! i
  = Some (mkLoop (wrap 32 (connCount el + open_on i tr))).
Proof.
  induction tr as [|e tr IH]; intros set i el Hi Hel.
  - simpl. rewrite Hi. destruct el as [cc]. simpl in *.
    change (open_on i []) with 0. by rewrite Z.add_0_r, Hel.
  - cbn [conn_run foldl]. fold (conn_run (conn_step set e) tr).
    rewrite open_on_cons.
    assert (Hstep : forall d, event_loop e = i ->
              alter (addConnCount d) (event_loop e) set !! i
              = Some (addConnCount d el)).
    { intros d <-. by rewrite list_lookup_alter_eq, Hi. }
    case_decide as Hloop.
    + rewrite (IH _ i (addConnCount (if is_open e then 1 else -1) el)).
      * unfold addConnCount. cbn [connCount]. rewrite wrap_add_l.
        do 3 f_equal. lia.
      * destruct e; cbn [conn_step is_open]; by apply Hstep.
      * unfold addConnCount. cbn [connCount]. apply wrap_wrap.
    + rewrite (IH _ i el); [done| |done].
      destruct e; cbn [conn_step]; by rewrite list_lookup_alter_ne.
Qed.

Lemma length_conn_run tr : forall set, length (conn_run set tr) = length set.
Proof.
  induction tr as [|e tr IH]; intros set; [done|].
  cbn [conn_run foldl]. fold (conn_run (conn_step set e) tr).
  rewrite IH. destruct e; apply length_alter.
Qed.

(** The group after a history that started on fresh loops. *)
Lemma conn_run_fresh n tr :
  conn_run (fresh_loops n) tr
  = (fun i => mkLoop (wrap 32 (open_on i tr))) <$> seq 0 n.
Proof.
  apply list_eq. intros i. rewrite list_lookup_fmap.
  destruct (decide (i < n)%nat) as [Hlt|Hge].
  - rewrite lookup_seq_lt by done.
    rewrite (conn_run_lookup tr (fresh_loops n) i (mkLoop 0)); [done| |done].
    by apply lookup_replicate_2.
  - rewrite lookup_seq_ge by lia. apply lookup_ge_None_2.
    rewrite length_conn_run. unfold fresh_loops. rewrite length_replicate. lia.
Qed.

(** Over the loops of the group, the open connections add up to the opens
    less the closes. *)
Lemma sum_open_on n tr :
  Forall (fun e => (event_loop e < n)%nat) tr ->
  foldr Z.add 0 ((fun i => open_on i tr) <$> seq 0 n) = opens tr - closes tr.
Proof.
  assert (Hind : forall (k : nat) (d : Z) m a, (a <= k < a + m)%nat ->
            foldr Z.add 0 ((fun i => if decide (k = i) then d else 0) <$> seq a m) = d).
  { intros k d. induction m as [|m IHm]; intros a Hk; [lia|].
    cbn [seq fmap list_fmap foldr]. case_decide as Hka.
    - subst a. clear IHm Hk.
      assert (Hz : forall b, (k < b)%nat ->
                foldr Z.add 0 ((fun i => if decide (k = i) then d else 0) <$> seq b m) = 0).
      { induction m as [|m IHm']; intros b Hb; [done|].
        cbn [seq fmap list_fmap foldr]. rewrite IHm' by lia.
        case_decide; lia. }
      rewrite Hz; lia.
    - rewrite IHm; lia. }
  assert (Hadd : forall (f g : nat -> Z) l,
            foldr Z.add 0 ((fun i => f i + g i) <$> l)
            = foldr Z.add 0 (f <$> l) + foldr Z.add 0 (g <$> l)).
  { intros f g l. induction l as [|x l IHl]; [done|].
    cbn [fmap list_fmap foldr]. fold (f <$> l) (g <$> l). 
    change (list_fmap nat Z (fun i => f i + g i) l) with ((fun i => f i + g i) <$> l).
    rewrite IHl. lia. }
  induction 1 as [|e tr He _ IH].
  - induction (seq 0 n) as [|x l IHl]; [done|].
    cbn [fmap list_fmap foldr]. change (open_on x []) with 0. 
    change (list_fmap nat Z (fun i => open_on i []) l) with ((fun i => open_on i []) <$> l) in *.
    lia.
  - rewrite opens_cons, <- IH.
    erewrite (list_fmap_ext (fun i => open_on i (e :: tr)));
      [|intros; apply open_on_cons].
    rewrite Hadd. f_equal. rewrite Hind; [done | lia].
Qed.

(** C7.  At a point where no open or close is under way, after a history
    of opens and closes on the loops of a group that started with every
    counter at 0, [CountConnections] is the number of opens less the number
    of closes: each open added 1 to the counter of its loop, each close took
    1 from it, and the function adds the counters up.  The counters are
    [int32] and the sum is an [int]: the connections left open on each loop
    fit the first and their total fits the second.  (The model is
    sequential: that the counters are read atomically and without a lock
    around the sum is not a statement about it.) *)
Theorem CountConnections_opens_less_closes intSize n tr :
  0 < intSize ->
  Forall (fun e => (event_loop e < n)%nat) tr ->
  (forall i, (i < n)%nat -> - 2 ^ 31 <= open_on i tr < 2 ^ 31) ->
  - 2 ^ (intSize - 1) <= opens tr - closes tr < 2 ^ (intSize - 1) ->
  CountConnections intSize (server_of (conn_run (fresh_loops n) tr))
  = opens tr - closes tr.
Proof.
  intros Hw Hloops H32 Hint.
  rewrite CountConnections_sum by done.
  cbn [server_of svr subEventLoopSet].
  rewrite conn_run_fresh. unfold sum_connCount.
  rewrite <- list_fmap_compose.
  rewrite (list_fmap_ext _ (fun i => open_on i tr) (seq 0 n)).
  - rewrite sum_open_on by done. by apply wrap_small.
  - intros i x [-> Hi]%lookup_seq. cbn [compose connCount].
    apply wrap_small; [done|]. apply H32. lia.
Qed.

(** The statement on a 64-bit platform, for two loops: three opens and
    one close leave two connections. *)
Lemma CountConnections_opens_less_closes_witness :
  CountConnections 64
    (server_of (conn_run (fresh_loops 2) [Opened 0; Opened 1; Opened 1; Closed 0]))
  = 2.
Proof.
  apply (CountConnections_opens_less_closes 64 2
           [Opened 0; Opened 1; Opened 1; Closed 0]%nat).
  - lia.
  - repeat constructor.
  - intros [|[|i]] Hi; [vm_compute; split; [discriminate | reflexivity] ..|lia].
  - vm_compute. split; [discriminate | reflexivity].
Defined.




End CountFacts.

(** ** [Serve] *)

Section ServeFacts.
Context {World : Type}.
Local Open Scope string_scope.
Implicit Types (RT : Runtime World) (p : Proc World) (l : listener)
  (options : Options) (h : EventHandler World) (tr : list Event).

Lemma removeAll_logged_run RT path p :
  removeAll_logged RT path p
  = ((tt, mkProc (os_RemoveAll RT path (world p)).2 (defaultLogger p)),
     EvRemoveAll path
       :: printed (defaultLogger p) (os_RemoveAll RT path (world p)).1).
Proof.
  unfold removeAll_logged, bind, call, sniffErrorAndLog, ret.
  destruct (os_RemoveAll RT path (world p)) as [[e|] w]; reflexivity.
Qed.

(** What the deferred function does: it closes the listener, and for the
    network "unix" it removes the socket path once and prints the error of
    the removal, if there is one. *)
Lemma Serve_deferred_run RT l p :
  Serve_deferred RT l p
  = if String.eqb (network l) "unix"
    then
      let w := listener_close RT l (world p) in
      ((tt, mkProc (os_RemoveAll RT (addr l) w).2 (defaultLogger p)),
       EvClose :: EvRemoveAll (addr l)
         :: printed (defaultLogger p) (os_RemoveAll RT (addr l) w).1)
    else ((tt, mkProc (listener_close RT l (world p)) (defaultLogger p)), [EvClose]).
Proof.
  unfold Serve_deferred, bind. unfold call at 1. cbn [world defaultLogger].
  destruct (String.eqb (network l) "unix").
  - by rewrite removeAll_logged_run.
  - reflexivity.
Qed.

(** [Serve] is its body followed by the deferred function; the outcome is
    the body's. *)
Lemma Serve_run RT ToLower h address options p :
  Serve RT ToLower h address options p
  = let body := Serve_body RT ToLower h address options p in
    let deferred := Serve_deferred RT body.1.1.1 body.1.2 in
    ((body.1.1.2, deferred.1.2), (body.2 ++ deferred.2)%list).
Proof.
  unfold Serve, bind, ret.
  destruct (Serve_body RT ToLower h address options p) as [[[l out] p1] t1].
  cbn [fst snd].
  destruct (Serve_deferred RT l p1) as [[[] p2] t2].
  cbn [fst snd]. by rewrite app_nil_r.
Qed.

Lemma Serve_body_run RT ToLower h address options p nw ad :
  parseAddr ToLower address = Some (nw, ad) ->
  Serve_body RT ToLower h address options p
  = let b := bindListener RT options (mkListener nw ad None None None)
               (mkProc (world p) (loggerAfter options p)) in
    let s := startServer RT h options b.1.1.1 b.1.1.2 b.1.2 in
    (s.1, (b.2 ++ s.2)%list).
Proof.
  intros Hp. unfold Serve_body, bind. rewrite Hp.
  assert (Hlog : (match Options.Logger options with
                  | Some lg => setDefaultLogger lg
                  | None => ret tt
                  end) p = ((tt, mkProc (world p) (loggerAfter options p)), [])).
  { unfold loggerAfter, setDefaultLogger, ret.
    destruct (Options.Logger options); [done|]. by destruct p. }
  rewrite Hlog.
  destruct (bindListener _ _ _ _) as [[[l err] p1] t1]. cbn [fst snd].
  destruct (startServer _ _ _ _ _ _) as [[lo p2] t2]. done.
Qed.

Ltac trace_facts :=
  rewrite ?Forall_app, ?not_elem_of_app, ?not_elem_of_cons;
  repeat split; try done; try apply not_elem_of_nil;
  repeat constructor; done.

Ltac serve_cases :=
  repeat (case_match; cbn beta iota in * );
  repeat match goal with
         | H : removeAll_logged _ _ _ = _ |- _ =>
             rewrite removeAll_logged_run in H
         end;
  simplify_eq/=.

Lemma isOneOf_false (x : string) (xs : list string) :
  x ∉ xs <-> isOneOf x xs = false.
Proof.
  unfold isOneOf. induction xs as [|y xs IH]; cbn [existsb].
  - split; [done | intros _; apply not_elem_of_nil].
  - rewrite not_elem_of_cons, orb_false_iff, IH, String.eqb_neq. done.
Qed.

(** A network outside the grammar: the [default] case of the [switch]. *)
Lemma bindListener_unsupported RT options l p :
  isOneOf (network l) schemes = false ->
  bindListener RT options l p = ((l, Some ErrUnsupportedProtocol), p, []).
Proof.
  unfold bindListener, isOneOf, schemes. cbn [existsb].
  intros H.
  repeat (apply orb_false_elim in H as [? H]).
  repeat match goal with H : String.eqb _ _ = false |- _ => rewrite H; clear H end.
  reflexivity.
Qed.

(** The network "unix" on Windows: the stale path is removed, and the
    [switch] is left with the error. *)
Lemma bindListener_unix_windows RT options l p :
  network l = "unix" -> GOOS RT = "windows" ->
  bindListener RT options l p
  = ((l, Some ErrUnsupportedProtocol),
     mkProc (os_RemoveAll RT (addr l) (world p)).2 (defaultLogger p),
     EvRemoveAll (addr l)
       :: printed (defaultLogger p) (os_RemoveAll RT (addr l) (world p)).1).
Proof.
  intros Hn Hg. unfold bindListener, bind, ret. rewrite Hn, Hg.
  cbn [isOneOf existsb String.eqb Ascii.eqb Bool.eqb orb andb].
  rewrite removeAll_logged_run. cbn [fst snd]. by rewrite app_nil_r.
Qed.

(** The [switch] writes neither [ln.network] nor [ln.addr], leaves the
    default logger alone and, when it ends without an error, has set
    [ln.ln] or [ln.pconn]. *)
Lemma bindListener_keeps RT options l p :
  let b := bindListener RT options l p in
  network b.1.1.1 = network l /\ addr b.1.1.1 = addr l
  /\ defaultLogger b.1.2 = defaultLogger p
  /\ (b.1.1.2 = None -> localAddr b.1.1.1 <> None).
Proof.
  unfold bindListener, listenPacket, listenStream, bind, call, ret, localAddr.
  serve_cases; done.
Qed.

(** The calls of the [switch]: for "unix" the removal of the stale path,
    then at most one listen call. *)
Lemma bindListener_calls RT options l p :
  exists listens,
    (bindListener RT options l p).2
    = ((if String.eqb (network l) "unix"
        then EvRemoveAll (addr l)
               :: printed (defaultLogger p) (os_RemoveAll RT (addr l) (world p)).1
        else []) ++ listens)%list
    /\ Forall (fun e => is_listen e = true) listens.
Proof.
  destruct (String.eqb_spec (network l) "unix") as [Hn|Hn].
  - unfold bindListener, bind. rewrite Hn.
    cbn [isOneOf existsb String.eqb Ascii.eqb Bool.eqb orb andb].
    rewrite removeAll_logged_run.
    unfold listenStream, bind, call, ret.
    serve_cases; eexists; (split; [reflexivity|]); repeat constructor.
  - unfold bindListener, listenPacket, listenStream, bind, call, ret.
    apply String.eqb_neq in Hn. rewrite Hn.
    serve_cases; eexists; (split; [reflexivity|]); repeat constructor.
Qed.

Lemma startServer_failed RT h options l e p :
  startServer RT h options l (Some e) p = ((l, Returned (Some e)), p, []).
Proof. reflexivity. Qed.

(** After a [switch] without error: [renormalize], and the inner [serve]
    when that succeeds. *)
Lemma startServer_bound RT h options l a p :
  localAddr l = Some a ->
  let l' := mkListener (network l) (addr l) (ln l) (pconn l) (Some a) in
  let rn := listener_renormalize RT l' (world p) in
  startServer RT h options l None p
  = match rn.1 with
    | Some e => ((l', Returned (Some e)), mkProc rn.2 (defaultLogger p), [EvRenormalize])
    | None =>
        let sv := serve RT h l' options rn.2 in
        ((l', Returned (serve_error sv.1)), mkProc sv.2 (defaultLogger p),
         [EvRenormalize; EvServe])
    end.
Proof.
  intros Ha. cbv zeta. unfold startServer, bind, call, ret. rewrite Ha.
  cbn [world defaultLogger].
  destruct (listener_renormalize RT _ (world p)) as [[e|] w]; cbn [fst snd]; [done|].
  cbn [world defaultLogger].
  destruct (serve RT h _ options w) as [r w']. reflexivity.
Qed.

Lemma startServer_keeps RT h options l err p :
  let s := startServer RT h options l err p in
  network s.1.1.1 = network l /\ addr s.1.1.1 = addr l
  /\ defaultLogger s.1.2 = defaultLogger p.
Proof.
  unfold startServer, bind, call, ret. serve_cases; done.
Qed.

(** C5.  For an address whose network is none of tcp, tcp4, tcp6, udp,
    udp4, udp6, unix, and for the network unix where the system is Windows,
    [Serve] returns [ErrUnsupportedProtocol], and among the calls it made is
    no listen call and no call of the inner [serve]: no listener was
    created.  The network of an address is the one [parseAddr] gives. *)
Theorem Serve_unsupported_protocol RT ToLower h address options p nw ad :
  parseAddr ToLower address = Some (nw, ad) ->
  nw ∉ schemes \/ (nw = "unix" /\ GOOS RT = "windows") ->
  let run := Serve RT ToLower h address options p in
  run.1.1 = Returned (Some ErrUnsupportedProtocol)
  /\ Forall (fun e => is_listen e = false) run.2
  /\ EvServe ∉ run.2.
Proof.
  intros Hp Hnw run. subst run.
  rewrite Serve_run, (Serve_body_run _ _ _ _ _ _ nw ad Hp).
  cbn zeta.
  set (l0 := mkListener nw ad None None None).
  set (p0 := mkProc (world p) (loggerAfter options p)).
  assert (Hb : exists p1 t1,
             bindListener RT options l0 p0 = ((l0, Some ErrUnsupportedProtocol), p1, t1)
             /\ Forall (fun e => is_listen e = false) t1 /\ EvServe ∉ t1).
  { destruct Hnw as [Hnw | [-> Hg]].
    - apply isOneOf_false in Hnw.
      exists p0, []. rewrite bindListener_unsupported by done.
      split; [done|]. split; [constructor | apply not_elem_of_nil].
    - eexists _, _. rewrite bindListener_unix_windows by done.
      split; [reflexivity|].
      destruct (os_RemoveAll RT (addr l0) (world p0)).1; cbn [printed]; split;
        trace_facts. }
  destruct Hb as (p1 & t1 & -> & Hl1 & Hs1).
  cbn [fst snd]. rewrite startServer_failed. cbn [fst snd].
  rewrite Serve_deferred_run.
  split; [done|].
  destruct (String.eqb (network l0) "unix"); cbn [fst snd];
    rewrite app_nil_r.
  - destruct (os_RemoveAll RT (addr l0) (listener_close RT l0 (world p1))).1;
      cbn [printed]; split; trace_facts.
  - split; trace_facts.
Qed.

Lemma not_elem_of_Forall (x : Event) tr : Forall (fun e => e <> x) tr -> x ∉ tr.
Proof. intros H Hin. by apply (proj1 (Forall_forall _ _) H x Hin). Qed.

Lemma bindListener_trace RT options l p :
  Forall bind_call (bindListener RT options l p).2.
Proof.
  destruct (bindListener_calls RT options l p) as (listens & -> & Hl).
  apply Forall_app. split.
  - destruct (String.eqb (network l) "unix"); [|constructor].
    constructor; [right; right; eauto|].
    destruct (os_RemoveAll RT (addr l) (world p)).1; cbn [printed];
      [|constructor].
    constructor; [|constructor]. right. by left.
  - eapply Forall_impl; [exact Hl|]. intros e He. by left.
Qed.

Lemma startServer_trace RT h options l err p :
  Forall start_call (startServer RT h options l err p).2.
Proof.
  unfold startServer, bind, call, ret, start_call.
  serve_cases; repeat (constructor; [auto|]); constructor.
Qed.

Lemma Serve_deferred_trace RT l p :
  Forall deferred_call (Serve_deferred RT l p).2.
Proof.
  rewrite Serve_deferred_run. unfold deferred_call.
  destruct (String.eqb (network l) "unix"); cbn [snd].
  - constructor; [by left|]. constructor; [right; right; eauto|].
    destruct (os_RemoveAll RT (addr l) _).1; cbn [printed]; [|constructor].
    constructor; [|constructor]. right. by left.
  - constructor; [by left | constructor].
Qed.






Lemma bindListener_silent RT options l p :
  bindListener (silent RT) options l p = quiet (bindListener RT options l p).
Proof.
  unfold quiet, bindListener, listenPacket, listenStream, bind, call, ret.
  cbn [silent GOOS net_Listen net_ListenPacket netpoll_ReusePortListen
    netpoll_ReusePortListenPacket].
  serve_cases; try reflexivity.
  all: destruct (os_RemoveAll RT (addr l) (world p)) as [[?|] ?];
    simplify_eq/=;
    repeat match goal with
           | H1 : ?x = _, H2 : ?x = _ |- _ => rewrite H1 in H2; simplify_eq/=
           end;
    reflexivity.
Qed.

Lemma startServer_silent RT h options l err p :
  startServer (silent RT) h options l err p
  = quiet (startServer RT h options l err p).
Proof.
  unfold quiet, startServer, bind, call, ret.
  cbn [silent listener_renormalize serve].
  serve_cases; reflexivity.
Qed.

Lemma Serve_deferred_silent RT l p :
  Serve_deferred (silent RT) l p = quiet (Serve_deferred RT l p).
Proof.
  unfold quiet. rewrite !Serve_deferred_run.
  cbn [silent os_RemoveAll listener_close fst snd printed].
  destruct (String.eqb (network l) "unix"); [|reflexivity].
  cbv zeta.
  destruct (os_RemoveAll RT (addr l) (listener_close RT l (world p))) as [[e|] w];
    reflexivity.
Qed.

(** The error of a removal reaches nothing but the logger: [Serve] with
    removals that fail is [Serve] with removals that report no error, up to
    the prints. *)
Lemma Serve_silent RT ToLower h address options p :
  Serve (silent RT) ToLower h address options p
  = quiet (Serve RT ToLower h address options p).
Proof.
  destruct (parseAddr_total ToLower address) as (nw & ad & Hp).
  rewrite !Serve_run, !(Serve_body_run _ _ _ _ _ _ nw ad Hp). cbv zeta.
  rewrite !bindListener_silent. unfold quiet. cbn [fst snd].
  rewrite !startServer_silent. unfold quiet. cbn [fst snd].
  rewrite !Serve_deferred_silent. unfold quiet. cbn [fst snd].
  by rewrite !filter_app.
Qed.

(** C8.  For an address of the network "unix", [Serve] removes the
    socket path twice: the stale path before it binds, and the listener's
    path once when it returns, right after it closed the listener; between
    the two it makes listen, renormalize and serve calls only.  The error of
    a removal is printed on the default logger and goes nowhere else: the
    result, the final state and every other call of [Serve] are those of the
    run in which the removals report no error. *)
Theorem Serve_unix_socket_removal RT ToLower h address options p ad :
  parseAddr ToLower address = Some ("unix", ad) ->
  let run := Serve RT ToLower h address options p in
  let lg := loggerAfter options p in
  (exists setup w,
      run.2 = ((EvRemoveAll ad :: printed lg (os_RemoveAll RT ad (world p)).1)
               ++ setup
               ++ EvClose :: EvRemoveAll ad
                    :: printed lg (os_RemoveAll RT ad w).1)%list
      /\ Forall (fun e => is_listen e = true \/ start_call e) setup
      /\ world run.1.2 = (os_RemoveAll RT ad w).2)
  /\ Serve (silent RT) ToLower h address options p = quiet run.
Proof.
  intros Hp run lg. split; [|apply Serve_silent].
  subst run. rewrite Serve_run, (Serve_body_run _ _ _ _ _ _ "unix" ad Hp).
  cbv zeta.
  set (l0 := mkListener "unix" ad None None None).
  set (p0 := mkProc (world p) (loggerAfter options p)).
  destruct (bindListener_calls RT options l0 p0) as (listens & Ht & Hl).
  pose proof (bindListener_keeps RT options l0 p0) as (Hn & Ha & Hlg & _).
  destruct (bindListener RT options l0 p0) as [[[l err] p1] t1].
  cbn [fst snd l0 p0 network addr world defaultLogger] in *.
  change (String.eqb "unix" "unix") with true in Ht. cbv iota in Ht.
  pose proof (startServer_keeps RT h options l err p1) as (Hn' & Ha' & Hlg').
  pose proof (startServer_trace RT h options l err p1) as Hs.
  destruct (startServer RT h options l err p1) as [[[l' out] p2] t2].
  cbn [fst snd] in *.
  rewrite Serve_deferred_run, Hn', Hn, Ha', Ha, Hlg', Hlg.
  change (String.eqb "unix" "unix") with true. cbv iota zeta. cbn [fst snd world].
  exists (listens ++ t2)%list, (listener_close RT l' (world p2)).
  split; [|split].
  - subst t1. fold lg. by rewrite <- !app_assoc.
  - apply Forall_app. split.
    + eapply Forall_impl; [exact Hl|]. intros e He. by left.
    + eapply Forall_impl; [exact Hs|]. intros e He. by right.
  - reflexivity.
Qed.

(** *** Further facts on [Serve] *)

(** A run of [Serve] by its three parts: the [switch], what follows it, and
    the deferred function. *)
Lemma Serve_parts RT ToLower h address options p nw ad :
  parseAddr ToLower address = Some (nw, ad) ->
  Serve RT ToLower h address options p
  = let b := bindListener RT options (mkListener nw ad None None None)
               (mkProc (world p) (loggerAfter options p)) in
    let s := startServer RT h options b.1.1.1 b.1.1.2 b.1.2 in
    let d := Serve_deferred RT s.1.1.1 s.1.2 in
    ((s.1.1.2, d.1.2), ((b.2 ++ s.2) ++ d.2)%list).
Proof. intros Hp. by rewrite Serve_run, (Serve_body_run _ _ _ _ _ _ nw ad Hp). Qed.

Lemma filter_none (P : Event -> Prop) `{!forall e, Decision (P e)} tr :
  Forall (fun e => ~ P e) tr -> filter P tr = [].
Proof.
  induction 1 as [|e tr He _ IH]; [done|].
  rewrite filter_cons. by case_decide.
Qed.

(** X3.  [Serve] reads its address through the lower-casing only: with a
    lower-casing that leaves lower-cased text as it is, the address and its
    lower-cased form give the same run, whatever the case of the scheme, the
    host or the path of a unix socket. *)
Theorem Serve_address_case_insensitive RT ToLower h address options p :
  ToLower (ToLower address) = ToLower address ->
  Serve RT ToLower h (ToLower address) options p
  = Serve RT ToLower h address options p.
Proof.
  intros Hid. unfold Serve, Serve_body.
  assert (Hp : parseAddr ToLower (ToLower address) = parseAddr ToLower address).
  { unfold parseAddr. by rewrite Hid. }
  by rewrite Hp.
Qed.

(** X4.  On every path [Serve] closes the listener exactly once: the close
    comes after every listen, renormalize and serve call, and only the
    removal of the socket path and its print can follow it. *)
Theorem Serve_closes_listener_once RT ToLower h address options p :
  exists pre post,
    (Serve RT ToLower h address options p).2 = (pre ++ EvClose :: post)%list
    /\ Forall (fun e => bind_call e \/ start_call e) pre
    /\ Forall (fun e => is_printf e = true \/ exists path, e = EvRemoveAll path) post
    /\ (EvClose ∉ pre) /\ (EvClose ∉ post).
Proof.
  destruct (parseAddr_total ToLower address) as (nw & ad & Hp).
  rewrite (Serve_parts _ _ _ _ _ _ nw ad Hp). cbv zeta. cbn [snd].
  set (b := bindListener _ _ _ _).
  set (s := startServer _ _ _ _ _ _).
  assert (Hpre : Forall (fun e => bind_call e \/ start_call e) (b.2 ++ s.2)).
  { apply Forall_app. split.
    - eapply Forall_impl; [apply bindListener_trace|]. intros e He. by left.
    - eapply Forall_impl; [apply startServer_trace|]. intros e He. by right. }
  rewrite Serve_deferred_run.
  exists (b.2 ++ s.2)%list,
    (if String.eqb (network s.1.1.1) "unix"
     then EvRemoveAll (addr s.1.1.1)
            :: printed (defaultLogger s.1.2)
                 (os_RemoveAll RT (addr s.1.1.1)
                    (listener_close RT s.1.1.1 (world s.1.2))).1
     else []).
  assert (Hpost : Forall
            (fun e => is_printf e = true \/ exists path, e = EvRemoveAll path)
            (if String.eqb (network s.1.1.1) "unix"
             then EvRemoveAll (addr s.1.1.1)
                    :: printed (defaultLogger s.1.2)
                         (os_RemoveAll RT (addr s.1.1.1)
                            (listener_close RT s.1.1.1 (world s.1.2))).1
             else [])).
  { destruct (String.eqb (network s.1.1.1) "unix"); [|constructor].
    constructor; [right; eauto|].
    destruct (os_RemoveAll RT _ _).1; cbn [printed]; [|constructor].
    constructor; [by left | constructor]. }
  split; [by destruct (String.eqb (network s.1.1.1) "unix")|].
  split; [done|]. split; [done|]. split.
  - apply not_elem_of_Forall. eapply Forall_impl; [exact Hpre|].
    intros e [[H | [H | [path H]]] | [H | H]] ->; discriminate.
  - apply not_elem_of_Forall. eapply Forall_impl; [exact Hpost|].
    intros e [H | [path H]] ->; discriminate.
Qed.

(** X5.  For a network other than "unix", [Serve] removes no file and
    prints nothing: its calls are listen, renormalize, serve and close
    calls. *)
Theorem Serve_removes_nothing_unless_unix RT ToLower h address options p nw ad :
  parseAddr ToLower address = Some (nw, ad) ->
  nw <> "unix" ->
  Forall (fun e => is_printf e = false /\ forall path, e <> EvRemoveAll path)
         (Serve RT ToLower h address options p).2.
Proof.
  intros Hp Hnw. rewrite (Serve_parts _ _ _ _ _ _ nw ad Hp). cbv zeta. cbn [snd].
  set (l0 := mkListener nw ad None None None).
  set (p0 := mkProc (world p) (loggerAfter options p)).
  destruct (bindListener_calls RT options l0 p0) as (listens & Ht & Hl).
  pose proof (bindListener_keeps RT options l0 p0) as (Hn & _).
  apply String.eqb_neq in Hnw.
  cbn [l0 network] in Ht, Hn. rewrite Hnw in Ht. cbn [app] in Ht.
  set (b := bindListener RT options l0 p0) in *.
  pose proof (startServer_keeps RT h options b.1.1.1 b.1.1.2 b.1.2) as (Hn' & _).
  pose proof (startServer_trace RT h options b.1.1.1 b.1.1.2 b.1.2) as Hs.
  set (s := startServer RT h options b.1.1.1 b.1.1.2 b.1.2) in *.
  rewrite Serve_deferred_run, Hn', Hn, Hnw. cbn [snd]. rewrite Ht.
  rewrite !Forall_app. repeat split.
  - eapply Forall_impl; [exact Hl|]. intros e He.
    split; [by destruct e | intros path ->; discriminate].
  - eapply Forall_impl; [exact Hs|]. intros e [-> | ->]; by split.
  - by repeat constructor.
Qed.

(** X6.  [Serve] makes at most one listen call, with the network and the
    address that [parseAddr] returned and with [options.ReusePort] deciding
    on the reuse-port variant: a packet listen for udp, udp4 and udp6, a
    stream listen for tcp, tcp4, tcp6 and, off Windows, for unix, and none
    otherwise. *)
Theorem Serve_listen_call RT ToLower h address options p nw ad :
  parseAddr ToLower address = Some (nw, ad) ->
  filter (fun e => is_listen e = true) (Serve RT ToLower h address options p).2
  = if isOneOf nw ["udp"; "udp4"; "udp6"]
    then [EvListenPacket (Options.ReusePort options) nw ad]
    else if (String.eqb nw "unix" && negb (String.eqb (GOOS RT) "windows"))
            || (negb (String.eqb nw "unix") && isOneOf nw ["tcp"; "tcp4"; "tcp6"])
    then [EvListen (Options.ReusePort options) nw ad]
    else [].
Proof.
  intros Hp. rewrite (Serve_parts _ _ _ _ _ _ nw ad Hp). cbv zeta. cbn [snd].
  set (l0 := mkListener nw ad None None None).
  set (p0 := mkProc (world p) (loggerAfter options p)).
  rewrite !filter_app.
  rewrite (filter_none _ (startServer _ _ _ _ _ _).2).
  2:{ eapply Forall_impl; [apply startServer_trace|].
      intros e [-> | ->]; discriminate. }
  rewrite (filter_none _ (Serve_deferred _ _ _).2).
  2:{ eapply Forall_impl; [apply Serve_deferred_trace|].
      intros e [-> | [H | [path ->]]]; [discriminate | by destruct e | discriminate]. }
  rewrite !app_nil_r.
  unfold bindListener, listenPacket, listenStream, bind, call, ret.
  cbn [l0 network addr].
  destruct (isOneOf nw ["udp"; "udp4"; "udp6"]).
  - destruct (Options.ReusePort options); serve_cases; reflexivity.
  - destruct (String.eqb nw "unix"); cbn [andb orb negb].
    + rewrite removeAll_logged_run.
      destruct (os_RemoveAll RT ad (world p0)) as [[e|] w]; cbn [fst snd printed];
        destruct (String.eqb (GOOS RT) "windows"); cbn [negb];
        destruct (Options.ReusePort options); serve_cases; reflexivity.
    + destruct (isOneOf nw ["tcp"; "tcp4"; "tcp6"]); [|reflexivity].
      destruct (Options.ReusePort options); serve_cases; reflexivity.
Qed.

(** X7.  [Serve] replaces the package variable [defaultLogger] by
    [options.Logger] when that is set and leaves it alone otherwise; the
    variable keeps this value when [Serve] has returned, also after an
    error, and every print of the run went to that logger. *)
Theorem Serve_logger RT ToLower h address options p :
  defaultLogger (Serve RT ToLower h address options p).1.2 = loggerAfter options p
  /\ Forall (fun e => forall lg err, e = EvPrintf lg err -> lg = loggerAfter options p)
            (Serve RT ToLower h address options p).2.
Proof.
  destruct (parseAddr_total ToLower address) as (nw & ad & Hp).
  rewrite (Serve_parts _ _ _ _ _ _ nw ad Hp). cbv zeta. cbn [fst snd].
  set (l0 := mkListener nw ad None None None).
  set (p0 := mkProc (world p) (loggerAfter options p)).
  destruct (bindListener_calls RT options l0 p0) as (listens & Ht & Hl).
  pose proof (bindListener_keeps RT options l0 p0) as (_ & _ & Hlg & _).
  set (b := bindListener RT options l0 p0) in *.
  pose proof (startServer_keeps RT h options b.1.1.1 b.1.1.2 b.1.2) as (_ & _ & Hlg').
  pose proof (startServer_trace RT h options b.1.1.1 b.1.1.2 b.1.2) as Hs.
  set (s := startServer RT h options b.1.1.1 b.1.1.2 b.1.2) in *.
  cbn [p0 defaultLogger] in Hlg, Ht.
  assert (Hd : defaultLogger s.1.2 = loggerAfter options p) by congruence.
  rewrite Serve_deferred_run.
  split.
  - by destruct (String.eqb (network s.1.1.1) "unix").
  - rewrite Ht, !Forall_app. repeat split.
    + destruct (String.eqb (network l0) "unix"); [|constructor].
      constructor; [intros ?? [=]|].
      destruct (os_RemoveAll RT _ _).1; cbn [printed]; [|constructor].
      constructor; [by intros ?? [= <- _] | constructor].
    + eapply Forall_impl; [exact Hl|]. intros e He lg err ->. discriminate.
    + eapply Forall_impl; [exact Hs|]. intros e [-> | ->] lg err [=].
    + clear Ht. destruct (String.eqb (network s.1.1.1) "unix"); cbn [snd].
      * constructor; [intros ?? [=]|]. constructor; [intros ?? [=]|].
        destruct (os_RemoveAll RT _ _).1; cbn [printed]; [|constructor].
        constructor; [|constructor]. intros lg err [= <- _]. exact Hd.
      * constructor; [intros ?? [=] | constructor].
Qed.

(** X8.  For the network "unix" on Windows [Serve] removes the path before
    it looks at the system: the run is the removal of the path, the close of
    the unbound listener and a second removal of the path, each removal
    with its print, and the result is [ErrUnsupportedProtocol]. *)
Theorem Serve_unix_on_windows RT ToLower h address options p ad :
  parseAddr ToLower address = Some ("unix", ad) ->
  GOOS RT = "windows" ->
  let lg := loggerAfter options p in
  let l0 := mkListener "unix" ad None None None in
  let rm1 := os_RemoveAll RT ad (world p) in
  let rm2 := os_RemoveAll RT ad (listener_close RT l0 rm1.2) in
  Serve RT ToLower h address options p
  = ((Returned (Some ErrUnsupportedProtocol), mkProc rm2.2 lg),
     (EvRemoveAll ad :: printed lg rm1.1)
       ++ EvClose :: EvRemoveAll ad :: printed lg rm2.1)%list.
Proof.
  intros Hp Hg lg l0 rm1 rm2.
  rewrite (Serve_parts _ _ _ _ _ _ "unix" ad Hp). cbv zeta.
  rewrite bindListener_unix_windows by done. cbn [fst snd].
  rewrite startServer_failed. cbn [fst snd].
  rewrite Serve_deferred_run. cbn [network addr world defaultLogger].
  change (String.eqb "unix" "unix") with true. cbv iota zeta. cbn [fst snd].
  by rewrite app_nil_r.
Qed.

(** X9.  The run that succeeds on a tcp network: one stream listen, then
    renormalize, the inner [serve] and the close, in this order; the inner
    [serve] receives the listener with the parsed network and address, the
    [net.Listener] and, as [lnaddr], the address that listener reports, and
    [Serve] returns what the inner [serve] returned. *)
Theorem Serve_stream_run RT ToLower h address options p nw ad nl w1 w2 :
  parseAddr ToLower address = Some (nw, ad) ->
  nw ∈ ["tcp"; "tcp4"; "tcp6"] ->
  (if Options.ReusePort options then netpoll_ReusePortListen RT else net_Listen RT)
    nw ad (world p) = (inl nl, w1) ->
  let l := mkListener nw ad (Some nl) None (Some (ln_Addr nl)) in
  listener_renormalize RT l w1 = (None, w2) ->
  Serve RT ToLower h address options p
  = ((Returned (serve_error (serve RT h l options w2).1),
      mkProc (listener_close RT l (serve RT h l options w2).2)
             (loggerAfter options p)),
     [EvListen (Options.ReusePort options) nw ad; EvRenormalize; EvServe; EvClose]).
Proof.
  intros Hp Hnw Hl l Hrn.
  rewrite (Serve_parts _ _ _ _ _ _ nw ad Hp). cbv zeta.
  assert (Hb : bindListener RT options (mkListener nw ad None None None)
                 (mkProc (world p) (loggerAfter options p))
               = ((mkListener nw ad (Some nl) None None, None),
                  mkProc w1 (loggerAfter options p),
                  [EvListen (Options.ReusePort options) nw ad])).
  { unfold bindListener, listenStream, bind, call, ret.
    cbn [network addr world defaultLogger pconn lnaddr].
    assert (Hc : isOneOf nw ["udp"; "udp4"; "udp6"] = false
                 /\ String.eqb nw "unix" = false
                 /\ isOneOf nw ["tcp"; "tcp4"; "tcp6"] = true).
    { rewrite !elem_of_cons, elem_of_nil in Hnw.
      destruct Hnw as [-> | [-> | [-> | []]]]; by repeat split. }
    destruct Hc as (-> & -> & ->).
    destruct (Options.ReusePort options); cbn beta iota; cbn [world defaultLogger];
      rewrite Hl; reflexivity. }
  rewrite Hb. cbn [fst snd].
  rewrite (startServer_bound RT h options _ (ln_Addr nl)) by reflexivity.
  cbv zeta. cbn [network addr ln pconn world defaultLogger]. fold l.
  rewrite Hrn. cbn [fst snd].
  rewrite Serve_deferred_run. cbn [network addr world defaultLogger l].
  assert (Hu : String.eqb nw "unix" = false).
  { rewrite !elem_of_cons, elem_of_nil in Hnw.
    destruct Hnw as [-> | [-> | [-> | []]]]; reflexivity. }
  rewrite Hu. reflexivity.
Qed.

(** X10.  The run that succeeds on a udp network: one packet listen, then
    renormalize, the inner [serve] and the close; the listener handed on
    holds the [net.PacketConn] and, as [lnaddr], its local address. *)
Theorem Serve_packet_run RT ToLower h address options p nw ad pc w1 w2 :
  parseAddr ToLower address = Some (nw, ad) ->
  nw ∈ ["udp"; "udp4"; "udp6"] ->
  (if Options.ReusePort options
   then netpoll_ReusePortListenPacket RT else net_ListenPacket RT)
    nw ad (world p) = (inl pc, w1) ->
  let l := mkListener nw ad None (Some pc) (Some (pc_LocalAddr pc)) in
  listener_renormalize RT l w1 = (None, w2) ->
  Serve RT ToLower h address options p
  = ((Returned (serve_error (serve RT h l options w2).1),
      mkProc (listener_close RT l (serve RT h l options w2).2)
             (loggerAfter options p)),
     [EvListenPacket (Options.ReusePort options) nw ad;
      EvRenormalize; EvServe; EvClose]).
Proof.
  intros Hp Hnw Hl l Hrn.
  rewrite (Serve_parts _ _ _ _ _ _ nw ad Hp). cbv zeta.
  assert (Hb : bindListener RT options (mkListener nw ad None None None)
                 (mkProc (world p) (loggerAfter options p))
               = ((mkListener nw ad None (Some pc) None, None),
                  mkProc w1 (loggerAfter options p),
                  [EvListenPacket (Options.ReusePort options) nw ad])).
  { unfold bindListener, listenPacket, bind, call, ret.
    cbn [network addr world defaultLogger ln lnaddr].
    assert (Hc : isOneOf nw ["udp"; "udp4"; "udp6"] = true).
    { rewrite !elem_of_cons, elem_of_nil in Hnw.
      by destruct Hnw as [-> | [-> | [-> | []]]]. }
    rewrite Hc.
    destruct (Options.ReusePort options); cbn beta iota; cbn [world defaultLogger];
      rewrite Hl; reflexivity. }
  rewrite Hb. cbn [fst snd].
  rewrite (startServer_bound RT h options _ (pc_LocalAddr pc)) by reflexivity.
  cbv zeta. cbn [network addr ln pconn world defaultLogger]. fold l.
  rewrite Hrn. cbn [fst snd].
  rewrite Serve_deferred_run. cbn [network addr world defaultLogger l].
  assert (Hu : String.eqb nw "unix" = false).
  { rewrite !elem_of_cons, elem_of_nil in Hnw.
    destruct Hnw as [-> | [-> | [-> | []]]]; reflexivity. }
  rewrite Hu. reflexivity.
Qed.

(** *** Setup errors and shutdown, by the results of the runtime *)





End ServeFacts.

(** ** [Serve] at examples *)

Section ServeExamples.
Local Open Scope string_scope.

(** The statement at "foo://x" on Linux, and at "unix://sock" on Windows. *)
Lemma Serve_unsupported_protocol_witness :
  (Serve (exampleRuntime "linux" None None GracefulShutdown) asciiToLower
     EventServer.handler "foo://x" exampleOptions exampleProc).1.1
  = Returned (Some ErrUnsupportedProtocol)
  /\ (Serve (exampleRuntime "windows" None None GracefulShutdown) asciiToLower
        EventServer.handler "unix://sock" exampleOptions exampleProc).1.1
     = Returned (Some ErrUnsupportedProtocol).
Proof.
  split.
  - apply (Serve_unsupported_protocol
             (exampleRuntime "linux" None None GracefulShutdown) asciiToLower
             EventServer.handler "foo://x" exampleOptions exampleProc "foo" "x").
    + reflexivity.
    + left. apply isOneOf_false. reflexivity.
  - apply (Serve_unsupported_protocol
             (exampleRuntime "windows" None None GracefulShutdown) asciiToLower
             EventServer.handler "unix://sock" exampleOptions exampleProc
             "unix" "sock").
    + reflexivity.
    + right. split; reflexivity.
Defined.


(** The statement at "unix://sock" on Linux, where every removal fails. *)
Lemma Serve_unix_socket_removal_witness :
  let RT := exampleRuntime "linux" (Some (SysError "permission denied")) None
              GracefulShutdown in
  let run := Serve RT asciiToLower EventServer.handler "unix://sock"
               exampleOptions exampleProc in
  run.1.1 = Returned None
  /\ run.2 = [EvRemoveAll "sock";
              EvPrintf StderrLogger (SysError "permission denied");
              EvListen false "unix" "sock"; EvRenormalize; EvServe;
              EvClose; EvRemoveAll "sock";
              EvPrintf StderrLogger (SysError "permission denied")]
  /\ (Serve (silent RT) asciiToLower EventServer.handler "unix://sock"
        exampleOptions exampleProc).1.1 = Returned None.
Proof.
  intros RT run.
  destruct (Serve_unix_socket_removal RT asciiToLower EventServer.handler
              "unix://sock" exampleOptions exampleProc "sock" eq_refl)
    as [_ Hq].
  split; [reflexivity|]. split; [reflexivity|].
  rewrite Hq. reflexivity.
Defined.

(** The statement at "TCP://Host:9000". *)
Lemma Serve_address_case_insensitive_witness :
  Serve (exampleRuntime "linux" None None GracefulShutdown) asciiToLower
    EventServer.handler "tcp://host:9000" exampleOptions exampleProc
  = Serve (exampleRuntime "linux" None None GracefulShutdown) asciiToLower
      EventServer.handler "TCP://Host:9000" exampleOptions exampleProc.
Proof.
  apply (Serve_address_case_insensitive
           (exampleRuntime "linux" None None GracefulShutdown) asciiToLower
           EventServer.handler "TCP://Host:9000" exampleOptions exampleProc).
  reflexivity.
Defined.

(** The statement at "udp://:53" where every removal would fail. *)
Lemma Serve_removes_nothing_unless_unix_witness :
  Forall (fun e => is_printf e = false /\ forall path, e <> EvRemoveAll path)
    (Serve (exampleRuntime "linux" (Some (SysError "permission denied")) None
              GracefulShutdown)
       asciiToLower EventServer.handler "udp://:53" exampleOptions exampleProc).2.
Proof.
  apply (Serve_removes_nothing_unless_unix _ asciiToLower EventServer.handler
           "udp://:53" exampleOptions exampleProc "udp" ":53").
  - reflexivity.
  - discriminate.
Defined.

(** The statement at "udp4://:53" with the reuse-port option set. *)
Lemma Serve_listen_call_witness :
  filter (fun e => is_listen e = true)
    (Serve (exampleRuntime "linux" None None GracefulShutdown) asciiToLower
       EventServer.handler "udp4://:53" (Options.mk true None) exampleProc).2
  = [EvListenPacket true "udp4" ":53"].
Proof.
  apply (Serve_listen_call (exampleRuntime "linux" None None GracefulShutdown)
           asciiToLower EventServer.handler "udp4://:53" (Options.mk true None)
           exampleProc "udp4" ":53").
  reflexivity.
Defined.

(** The statement at "unix://Sock" on Windows: the path "sock" is removed
    twice and nothing is bound. *)
Lemma Serve_unix_on_windows_witness :
  Serve (exampleRuntime "windows" None None GracefulShutdown) asciiToLower
    EventServer.handler "unix://Sock" exampleOptions exampleProc
  = ((Returned (Some ErrUnsupportedProtocol), exampleProc),
     [EvRemoveAll "sock"; EvClose; EvRemoveAll "sock"]).
Proof.
  apply (Serve_unix_on_windows (exampleRuntime "windows" None None GracefulShutdown)
           asciiToLower EventServer.handler "unix://Sock" exampleOptions
           exampleProc "sock"); reflexivity.
Defined.

(** The statement at "tcp://:9000", and at "udp://:53". *)
Lemma Serve_stream_run_witness :
  Serve (exampleRuntime "linux" None None GracefulShutdown) asciiToLower
    EventServer.handler "tcp://:9000" exampleOptions exampleProc
  = ((Returned None, exampleProc),
     [EvListen false "tcp" ":9000"; EvRenormalize; EvServe; EvClose]).
Proof.
  apply (Serve_stream_run (exampleRuntime "linux" None None GracefulShutdown)
           asciiToLower EventServer.handler "tcp://:9000" exampleOptions
           exampleProc "tcp" ":9000" (mkNetListener 3 ":9000") tt tt).
  - reflexivity.
  - apply list_elem_of_here.
  - reflexivity.
  - reflexivity.
Defined.

Lemma Serve_packet_run_witness :
  Serve (exampleRuntime "linux" None None GracefulShutdown) asciiToLower
    EventServer.handler "udp://:53" exampleOptions exampleProc
  = ((Returned None, exampleProc),
     [EvListenPacket false "udp" ":53"; EvRenormalize; EvServe; EvClose]).
Proof.
  apply (Serve_packet_run (exampleRuntime "linux" None None GracefulShutdown)
           asciiToLower EventServer.handler "udp://:53" exampleOptions
           exampleProc "udp" ":53" (mkPacketConn 3 ":53") tt tt).
  - reflexivity.
  - apply list_elem_of_here.
  - reflexivity.
  - reflexivity.
Defined.

End ServeExamples.
